(** * NVR table extraction: section stitcher, row normalizer and drivers

    A shallow embedding of [functions/scripts/extract_pdf_tables.py]
    (class [NVRPDFExtractor] and the command-line [main]) and of the table
    extraction part of [python-functions/main.py] ([extractPdfTables]).

    Conventions of the embedding.
    - Page coordinates are Python floats; they are modelled by rationals
      ([Q]), compared with [Qle_bool].  Order comparisons are exact on
      floats; the one subtraction of the source (heading de-duplication) is
      taken exactly.
    - The PDF primitives ([page.find_tables], [page.search],
      [table.extract]) belong to pdfplumber.  A page is the record of what
      these calls return, each call either a value or a raised exception.
    - Exceptions are values of an error monad [result]; a [try]/[except]
      is a [match] on the result.
    - [print] and [logger] calls have no effect on results and are left
      out. *)

From Stdlib Require Import List String Ascii Bool Arith PeanoNat Lia.
From Stdlib Require Import QArith Qabs Lqa Sorted Permutation DecimalString.
Import ListNotations.

Local Open Scope string_scope.
Local Open Scope list_scope.
Local Open Scope nat_scope.

(** ** Exceptions and the error monad *)

(** A Python exception: its class name and [str(e)]. *)
Record exn : Type := mk_exn { exn_type : string; exn_str : string }.

Inductive result (A : Type) : Type :=
| Ok (a : A)
| Raise (e : exn).
Arguments Ok {A} a.
Arguments Raise {A} e.

Definition ret {A : Type} (a : A) : result A := Ok a.

Definition bind {A B : Type} (c : result A) (k : A -> result B) : result B :=
  match c with
  | Ok a => k a
  | Raise e => Raise e
  end.

Declare Scope result_scope.
Delimit Scope result_scope with result.
Notation "x <- c ;; k" := (bind c (fun x => k))
  (at level 61, c at next level, right associativity) : result_scope.
Local Open Scope result_scope.

(** [for x in l: s = f(s, x)], leaving at the first exception. *)
Fixpoint for_each {A S : Type} (f : S -> A -> result S) (l : list A) (s : S)
  : result S :=
  match l with
  | [] => ret s
  | a :: l' => s' <- f s a ;; for_each f l' s'
  end.

(** [enumerate(l)]: the elements of [l] with their indices from 0. *)
Definition enumerate {A : Type} (l : list A) : list (nat * A) :=
  combine (seq 0 (List.length l)) l.

(** [enumerate(l, 1)]. *)
Definition enumerate1 {A : Type} (l : list A) : list (nat * A) :=
  combine (seq 1 (List.length l)) l.

(** Truth value of a Python list: [if l:]. *)
Definition truthy {A : Type} (l : list A) : bool :=
  match l with
  | [] => false
  | _ :: _ => true
  end.

(** ** Data model *)

(** A cell of an extracted grid: a string or [None]. *)
Definition Cell : Type := option string.
Definition Row : Type := list Cell.
Definition Grid : Type := list Row.

Definition cell_eqb (a b : Cell) : bool :=
  match a, b with
  | None, None => true
  | Some x, Some y => String.eqb x y
  | _, _ => false
  end.

(** Python list equality [row == other]. *)
Fixpoint row_eqb (r1 r2 : Row) : bool :=
  match r1, r2 with
  | [], [] => true
  | a :: r1', b :: r2' => cell_eqb a b && row_eqb r1' r2'
  | _, _ => false
  end.

Inductive SectionType : Type := flora | fauna | flora_range | fauna_range.

Definition SectionType_eqb (a b : SectionType) : bool :=
  match a, b with
  | flora, flora | fauna, fauna
  | flora_range, flora_range | fauna_range, fauna_range => true
  | _, _ => false
  end.

(** The key of a section in [outputs], also its [tableName]. *)
Definition section_name (s : SectionType) : string :=
  match s with
  | flora => "flora"
  | fauna => "fauna"
  | flora_range => "flora_range"
  | fauna_range => "fauna_range"
  end.

(** One value of the [outputs] dictionary:
    [{"rows": [], "header": None, "page_numbers": []}]. *)
Record Section : Type := mk_section {
  rows : list Row;
  header : option Row;
  page_numbers : list nat
}.

Definition empty_section : Section :=
  {| rows := []; header := None; page_numbers := [] |}.

(** The [outputs] dictionary; its four keys are fixed, in this order. *)
Record Outputs : Type := mk_outputs {
  o_flora : Section;
  o_fauna : Section;
  o_flora_range : Section;
  o_fauna_range : Section
}.

Definition initial_outputs : Outputs :=
  {| o_flora := empty_section; o_fauna := empty_section;
     o_flora_range := empty_section; o_fauna_range := empty_section |}.

(** [outputs[section_type]] *)
Definition get_section (o : Outputs) (s : SectionType) : Section :=
  match s with
  | flora => o_flora o
  | fauna => o_fauna o
  | flora_range => o_flora_range o
  | fauna_range => o_fauna_range o
  end.

(** The effect on [outputs] of mutating the section stored under [s]. *)
Definition set_section (o : Outputs) (s : SectionType) (v : Section) : Outputs :=
  match s with
  | flora => {| o_flora := v; o_fauna := o_fauna o;
                o_flora_range := o_flora_range o; o_fauna_range := o_fauna_range o |}
  | fauna => {| o_flora := o_flora o; o_fauna := v;
                o_flora_range := o_flora_range o; o_fauna_range := o_fauna_range o |}
  | flora_range => {| o_flora := o_flora o; o_fauna := o_fauna o;
                      o_flora_range := v; o_fauna_range := o_fauna_range o |}
  | fauna_range => {| o_flora := o_flora o; o_fauna := o_fauna o;
                      o_flora_range := o_flora_range o; o_fauna_range := v |}
  end.

(** [outputs.items()] in insertion order. *)
Definition section_order : list SectionType :=
  [flora; fauna; flora_range; fauna_range].

(** A hit of [page.search]: only its ["top"] and ["bottom"] are read. *)
Record Hit : Type := mk_hit { hit_top : Q; hit_bottom : Q }.

(** An entry of [headers_on_page]:
    [{"type": ..., "bottom": hit["bottom"], "top": hit["top"]}]. *)
Record Heading : Type := mk_heading {
  h_type : SectionType;
  h_bottom : Q;
  h_top : Q
}.

(** A table found on a page: [table.bbox = (x0, top, x1, bottom)] and the
    outcome of [table.extract()]. *)
Record Table : Type := mk_table {
  bbox : Q * Q * Q * Q;
  extract : result Grid
}.

(** [table.bbox[1]] *)
Definition bbox_1 (t : Table) : Q := let '(_, y0, _, _) := bbox t in y0.
(** [table.bbox[3]] *)
Definition bbox_3 (t : Table) : Q := let '(_, _, _, y1) := bbox t in y1.

(** The two ways [find_tables] is called: with the lines/lines/snap 4
    settings (extraction) and with no argument (diagnostics). *)
Inductive TableSettings : Type := lines_snap4 | default_settings.

Record Page : Type := mk_page {
  find_tables : TableSettings -> result (list Table);
  search : string -> result (list Hit);   (* page.search(pattern, case=False) *)
  height : Q
}.

(** The search patterns of the source. *)
Definition pat_verified_records : string := "Verified Records".
Definition pat_fauna_range : string :=
  "Threatened fauna within 5000 metres\s*\(based on Range Boundaries\)".
Definition pat_flora_range : string :=
  "Threatened flora within 5000 metres\s*\(based on Range Boundaries\)".
Definition pat_fauna : string := "Threatened fauna within 5000 metres".
Definition pat_flora : string := "Threatened flora within 5000 metres".

(** ** Heading detection (source lines 121-157) *)

Definition Qlt_bool (a b : Q) : bool := negb (Qle_bool b a).

(** [any(abs(r_hit['top'] - hit['top']) < 5 for r_hit in range_hits)] *)
Definition near_range_hit (range_hits : list Hit) (hit : Hit) : bool :=
  existsb (fun r_hit => Qlt_bool (Qabs (hit_top r_hit - hit_top hit)) 5) range_hits.

Definition heading_of (ty : SectionType) (hit : Hit) : Heading :=
  {| h_type := ty; h_bottom := hit_bottom hit; h_top := hit_top hit |}.

(** [list.sort(key=lambda x: x["top"])]: a stable sort; of two headings
    with equal keys the one that came first stays first. *)
Fixpoint insert_by_top (h : Heading) (l : list Heading) : list Heading :=
  match l with
  | [] => [h]
  | x :: l' =>
      if Qle_bool (h_top h) (h_top x) then h :: x :: l'
      else x :: insert_by_top h l'
  end.

Fixpoint sort_by_top (l : list Heading) : list Heading :=
  match l with
  | [] => []
  | h :: l' => insert_by_top h (sort_by_top l')
  end.

(** The body of [if verified_records_search:]. *)
Definition find_headers (page : Page) : result (list Heading) :=
  fauna_range_hits <- search page pat_fauna_range ;;
  flora_range_hits <- search page pat_flora_range ;;
  fauna_hits <- search page pat_fauna ;;
  flora_hits <- search page pat_flora ;;
  ret (sort_by_top
         (map (heading_of fauna_range) fauna_range_hits
          ++ map (heading_of flora_range) flora_range_hits
          ++ map (heading_of fauna)
               (filter (fun hit => negb (near_range_hit fauna_range_hits hit)) fauna_hits)
          ++ map (heading_of flora)
               (filter (fun hit => negb (near_range_hit flora_range_hits hit)) flora_hits))).

Definition headers_of_page (page : Page) : result (list Heading) :=
  verified_records_search <- search page pat_verified_records ;;
  if truthy verified_records_search then find_headers page else ret [].

(** ** Section stitching (source lines 159-198) *)

(** The loop state: [outputs] and [last_section_type]. *)
Definition State : Type := (Outputs * option SectionType)%type.

(** Lines 173-180: a non-empty [content] lands in [section]. *)
Definition absorb_heading_table (page_num : nat) (content : Grid) (section : Section)
  : Section :=
  match content with
  | [] => section
  | first :: _ =>
      let hdr := match header section with
                 | None => first
                 | Some h => h
                 end in
      {| rows := rows section ++ filter (fun row => negb (row_eqb row hdr)) content;
         header := Some hdr;
         page_numbers := page_numbers section ++ [page_num] |}
  end.

(** Lines 170-180: the body of [for table in tables_on_page]. *)
Definition band_table (page_num : nat) (section_type : SectionType)
    (top_boundary bottom_boundary : Q) (outputs : Outputs) (table : Table)
  : result Outputs :=
  if Qle_bool top_boundary (bbox_1 table) && Qle_bool (bbox_3 table) bottom_boundary
  then
    content <- extract table ;;
    if truthy content then
      ret (set_section outputs section_type
             (absorb_heading_table page_num content (get_section outputs section_type)))
    else ret outputs
  else ret outputs.

(** [headers_on_page[i+1]["top"] if i + 1 < len(headers_on_page) else page.height] *)
Definition bottom_boundary_of (headers_on_page : list Heading) (page_height : Q) (i : nat)
  : Q :=
  match nth_error headers_on_page (i + 1) with
  | Some next => h_top next
  | None => page_height
  end.

(** Lines 161-180: the body of [for i, header in enumerate(headers_on_page)]. *)
Definition band_heading (page_num : nat) (headers_on_page : list Heading)
    (page_height : Q) (tables_on_page : list Table) (st : State)
    (ih : nat * Heading) : result State :=
  let (i, hd) := ih in
  let section_type := h_type hd in
  let top_boundary := h_bottom hd in
  let bottom_boundary := bottom_boundary_of headers_on_page page_height i in
  outputs <- for_each (band_table page_num section_type top_boundary bottom_boundary)
               tables_on_page (fst st) ;;
  ret (outputs, Some section_type).

(** Lines 190-193: a continuation table lands in [section]. *)
Definition absorb_continuation (page_num : nat) (header_to_match : Row)
    (content : Grid) (section : Section) : Section :=
  {| rows := rows section
             ++ filter (fun row => negb (row_eqb row header_to_match)) content;
     header := header section;
     page_numbers := page_numbers section ++ [page_num] |}.

(** Lines 187-196: [for table in tables_on_page] with its [break]. *)
Fixpoint continuation_tables (page_num : nat) (last : SectionType)
    (header_to_match : Row) (tables : list Table) (outputs : Outputs)
  : result State :=
  match tables with
  | [] => ret (outputs, Some last)
  | table :: rest =>
      content <- extract table ;;
      match content with
      | first :: _ =>
          if List.length first =? List.length header_to_match then
            continuation_tables page_num last header_to_match rest
              (set_section outputs last
                 (absorb_continuation page_num header_to_match content
                    (get_section outputs last)))
          else ret (outputs, None)
      | [] => ret (outputs, None)
      end
  end.

(** Lines 110-198: the body of [for page_num, page in enumerate(pages, 1)]. *)
Definition process_page (st : State) (np : nat * Page) : result State :=
  let (page_num, page) := np in
  let (outputs, last_section_type) := st in
  tables_on_page <- find_tables page lines_snap4 ;;
  headers_on_page <- headers_of_page page ;;
  if truthy headers_on_page then
    for_each (band_heading page_num headers_on_page (height page) tables_on_page)
      (enumerate headers_on_page) (outputs, None)
  else
    match last_section_type with
    | Some last =>
        if truthy tables_on_page then
          match header (get_section outputs last) with
          | Some (c :: hdr) =>
              continuation_tables page_num last (c :: hdr) tables_on_page outputs
          | _ => ret (outputs, None)
          end
        else ret st
    | None => ret st
    end.

(** The page loop from its initial state. *)
Definition scan_pages (pages : list Page) : result State :=
  for_each process_page (enumerate1 pages) (initial_outputs, None).

(** ** Row normalizer (source lines 35-93) *)

(** Strings are sequences of 8-bit characters; the case and white-space
    functions below are Python's restricted to ASCII. *)

Definition is_upper (c : ascii) : bool :=
  let n := nat_of_ascii c in (65 <=? n) && (n <=? 90).
Definition is_lower (c : ascii) : bool :=
  let n := nat_of_ascii c in (97 <=? n) && (n <=? 122).
Definition is_alpha (c : ascii) : bool := is_upper c || is_lower c.

Definition lower_char (c : ascii) : ascii :=
  if is_upper c then ascii_of_nat (nat_of_ascii c + 32) else c.
Definition upper_char (c : ascii) : ascii :=
  if is_lower c then ascii_of_nat (nat_of_ascii c - 32) else c.

(** [s.lower()] *)
Fixpoint lower (s : string) : string :=
  match s with
  | EmptyString => EmptyString
  | String c s' => String (lower_char c) (lower s')
  end.

(** [sub in s] *)
Fixpoint contains (sub s : string) : bool :=
  match s with
  | EmptyString => String.prefix sub EmptyString
  | String _ s' => String.prefix sub s || contains sub s'
  end.

(** [str.isspace] on one ASCII character: tab, line feed, vertical tab,
    form feed, carriage return, the separators 28-31 and space. *)
Definition is_space (c : ascii) : bool :=
  let n := nat_of_ascii c in
  ((9 <=? n) && (n <=? 13)) || ((28 <=? n) && (n <=? 32)).

Fixpoint lstrip (s : string) : string :=
  match s with
  | EmptyString => EmptyString
  | String c s' => if is_space c then lstrip s' else s
  end.

Fixpoint rstrip (s : string) : string :=
  match s with
  | EmptyString => EmptyString
  | String c s' =>
      match rstrip s' with
      | EmptyString => if is_space c then EmptyString else String c EmptyString
      | r => String c r
      end
  end.

(** [s.strip()] *)
Definition strip (s : string) : string := rstrip (lstrip s).

(** What the normalizer uses of pandas.  [to_datetime_format s fmt] is
    [pd.to_datetime(s, format=fmt)], [None] standing for the [ValueError]
    or [TypeError] the source catches; [to_datetime_coerce s] is
    [pd.to_datetime(s, errors='coerce')], [None] standing for [NaT] or any
    exception; [strftime_dmy d] is [d.strftime('%d-%m-%Y')]. *)
Class DateLib : Type := {
  Timestamp : Type;
  to_datetime_format : string -> string -> option Timestamp;
  to_datetime_coerce : string -> option Timestamp;
  strftime_dmy : Timestamp -> string
}.

(** A Python dict with keys in insertion order; a header cell is a key. *)
Definition Dict : Type := list (Cell * Cell).

(** [d[k] = v] *)
Fixpoint dict_set (d : Dict) (k v : Cell) : Dict :=
  match d with
  | [] => [(k, v)]
  | (k', v') :: d' =>
      if cell_eqb k' k then (k', v) :: d' else (k', v') :: dict_set d' k v
  end.

Definition dict_keys (d : Dict) : list Cell := map fst d.

(** The return value of [clean_and_process_table_data]. *)
Record Processed : Type := mk_processed {
  p_headers : Row;
  p_rows : list Row;
  p_processed_data : list Dict
}.

(** [header_name.lower()] on a header cell that is [None]. *)
Definition attribute_error_lower : exn :=
  {| exn_type := "AttributeError";
     exn_str := "'NoneType' object has no attribute 'lower'" |}.

Definition date_formats : list string :=
  ["%d-%b-%Y"; "%d/%m/%Y"; "%Y-%m-%d"; "%d-%m-%Y"].

Definition date_words : list string := ["date"; "recorded"; "last"].

Section Normalizer.
Context {datelib : DateLib}.

(** Lines 39-44: [for fmt in (...): try: ... return ... except: continue] *)
Fixpoint try_formats (date_str : string) (fmts : list string) : option string :=
  match fmts with
  | [] => None
  | fmt :: rest =>
      match to_datetime_format date_str fmt with
      | Some parsed_date => Some (strftime_dmy parsed_date)
      | None => try_formats date_str rest
      end
  end.

(** [parse_dates], called on strings. *)
Definition parse_dates (date_str : string) : string :=
  if String.eqb date_str "" then ""
  else
    match try_formats date_str date_formats with
    | Some text => text
    | None =>
        match to_datetime_coerce date_str with
        | Some parsed_date => strftime_dmy parsed_date
        | None => date_str
        end
    end.

(** Lines 78-85: the value stored under [header_name]. *)
Definition clean_value (header_name : Cell) (value : Cell) : result Cell :=
  match value with
  | None => ret None
  | Some v =>
      if String.eqb v "" then ret None
      else
        match header_name with
        | None => Raise attribute_error_lower
        | Some name =>
            if existsb (fun date_word => contains date_word (lower name)) date_words
            then ret (Some (parse_dates v))
            else ret (Some (strip v))
        end
  end.

(** Lines 64-68: the row appended to [cleaned_rows].  (The source pads
    the row object itself before slicing it; the rows of a section are
    not read again after this call.) *)
Definition clean_row (num_columns : nat) (row : Row) : Row :=
  if negb (List.length row =? num_columns) then
    firstn num_columns (row ++ repeat None (num_columns - List.length row))
  else row.

(** Lines 74-85: the body of [for col_idx, header_name in enumerate(header)]. *)
Definition process_column (row : Row) (processed_row : Dict) (ih : nat * Cell)
  : result Dict :=
  let (col_idx, header_name) := ih in
  let value := if col_idx <? List.length row
               then nth col_idx row None else None in
  v <- clean_value header_name value ;;
  ret (dict_set processed_row header_name v).

Definition process_row (hdr : Row) (row : Row) : result Dict :=
  for_each (process_column row) (enumerate hdr) [].

Definition clean_and_process_table_data (rws : list Row) (hdr : Row)
  : result Processed :=
  if negb (truthy hdr) || negb (truthy rws) then
    ret {| p_headers := []; p_rows := []; p_processed_data := [] |}
  else
    let num_columns := List.length hdr in
    let cleaned_rows := map (clean_row num_columns) rws in
    processed_data <-
      for_each (fun acc row => d <- process_row hdr row ;; ret (acc ++ [d]))
        cleaned_rows [] ;;
    ret {| p_headers := hdr; p_rows := cleaned_rows;
           p_processed_data := processed_data |}.

End Normalizer.

(** ** Assembling the output tables (source lines 200-233) *)

(** [s.replace('_', ' ')] *)
Fixpoint replace_underscore (s : string) : string :=
  match s with
  | EmptyString => EmptyString
  | String c s' =>
      String (if Ascii.eqb c "_"%char then " "%char else c) (replace_underscore s')
  end.

(** [s.title()]: a letter that follows a letter is lowered, any other
    letter is raised. *)
Fixpoint title_from (after_letter : bool) (s : string) : string :=
  match s with
  | EmptyString => EmptyString
  | String c s' =>
      String (if after_letter then lower_char c else upper_char c)
        (title_from (is_alpha c) s')
  end.

Definition title (s : string) : string := title_from false s.

(** One entry of [tables_data]. *)
Record TableInfo : Type := mk_table_info {
  pageNumber : list nat;
  tableIndex : nat;
  tableName : string;
  description : string;
  headers : Row;
  t_rows : list Row;
  processed_data : list Dict;
  record_count : nat;
  mergedCells : list nat;
  t_bbox : list nat
}.

Section Extractor.
Context {datelib : DateLib}.

(** Lines 203-226: the body of [for section_name, section_data in
    outputs.items()]; the state is [tables_data] and [table_index]. *)
Definition finalize_section (outputs : Outputs) (acc : list TableInfo * nat)
    (s : SectionType) : result (list TableInfo * nat) :=
  let (tables_data, table_index) := acc in
  let section_data := get_section outputs s in
  match rows section_data, header section_data with
  | _ :: _, Some (c :: hdr) =>
      processed_table <-
        clean_and_process_table_data (rows section_data) (c :: hdr) ;;
      let table_info :=
        {| pageNumber := page_numbers section_data;
           tableIndex := table_index;
           tableName := section_name s;
           description :=
             "NVR " ++ title (replace_underscore (section_name s)) ++ " Data";
           headers := p_headers processed_table;
           t_rows := p_rows processed_table;
           processed_data := p_processed_data processed_table;
           record_count := List.length (p_processed_data processed_table);
           mergedCells := [];
           t_bbox := [0; 0; 0; 0] |} in
      ret (tables_data ++ [table_info], table_index + 1)
  | _, _ => ret acc
  end.

(** [except Exception as e: logger.error(...); raise] *)
Definition log_and_reraise {A : Type} (c : result A) : result A :=
  match c with
  | Ok a => Ok a
  | Raise e => Raise e
  end.

(** [extract_nvr_tables] on the pages of the opened document. *)
Definition extract_nvr_tables (pages : list Page) : result (list TableInfo) :=
  log_and_reraise
    (st <- scan_pages pages ;;
     acc <- for_each (finalize_section (fst st)) section_order ([], 0) ;;
     ret (fst acc)).

End Extractor.

(** ** The command-line driver [main] (source lines 235-337) *)

(** [str(n)] for a natural number. *)
Definition str_nat (n : nat) : string := NilEmpty.string_of_uint (Nat.to_uint n).

(** [result["metadata"]] *)
Record Metadata : Type := mk_metadata {
  extractor_version : string;
  pdfplumber_version : string;
  extraction_type : string;
  sections_extracted : list string
}.

(** [result['debug_info']] *)
Record DebugInfo : Type := mk_debug_info {
  total_pages : nat;
  tables_found_per_page : list (nat * nat);              (* page, table_count *)
  text_search_results : list (string * list (string * nat))
}.

(** The [result] dictionary of [main]; the keys ['debug_info'] and
    ['error'] are absent until they are assigned. *)
Record RunResult : Type := mk_run_result {
  success : bool;
  document_type : string;
  tables : list TableInfo;
  table_count : nat;
  metadata : Metadata;
  debug_info : option DebugInfo;
  error : option string
}.

(** The [error_result] dictionary of [main]. *)
Record ErrorResult : Type := mk_error_result {
  er_success : bool;
  er_error : string;
  er_traceback : string;
  er_tables : list TableInfo
}.

(** What [json.dump] has written to [output_path]. *)
Inductive FileContent : Type :=
| RunFile (r : RunResult)
| ErrorFile (e : ErrorResult).

(** The observable outcome of [main]: the content of the output file (if
    one was written), the exit status, and the [result] dictionary as it
    stands in memory when [main] ends normally. *)
Record MainOutcome : Type := mk_main_outcome {
  output_file : option FileContent;
  exit_code : nat;
  result_in_memory : option RunResult
}.

Definition search_phrases : list string :=
  [ "Threatened fauna within 5000 metres";
    "Threatened flora within 5000 metres";
    "Verified Records";
    "fauna";
    "flora";
    "species" ].

(** Lines 304-308: [search_results[phrase] = len(hits)]. *)
Definition count_phrase (page : Page) (search_results : list (string * nat))
    (phrase : string) : result (list (string * nat)) :=
  hits <- search page phrase ;;
  ret (search_results ++ [(phrase, List.length hits)]).

(** Lines 286-310: the body of the diagnostic page loop. *)
Definition debug_page (dbg : DebugInfo) (np : nat * Page) : result DebugInfo :=
  let (page_num, page) := np in
  tables_on_page <- find_tables page default_settings ;;
  search_results <- for_each (count_phrase page) search_phrases [] ;;
  ret {| total_pages := total_pages dbg;
         tables_found_per_page :=
           tables_found_per_page dbg ++ [(page_num, List.length tables_on_page)];
         text_search_results :=
           text_search_results dbg
           ++ [(("page_" ++ str_nat page_num)%string, search_results)] |}.

(** Lines 279-310. *)
Definition collect_debug_info (pages : list Page) : result DebugInfo :=
  for_each debug_page (enumerate1 pages)
    {| total_pages := List.length pages;
       tables_found_per_page := [];
       text_search_results := [] |}.

(** Line 316. *)
Definition no_tables_error (dbg : DebugInfo) : string :=
  ("No species data tables found in PDF. Found "
   ++ str_nat (list_sum (map snd (tables_found_per_page dbg)))
   ++ " total tables across " ++ str_nat (total_pages dbg)
   ++ " pages, but none contained expected NVR species data format.")%string.

Section Drivers.
Context {datelib : DateLib}.

(** The surroundings of a run: [pdfplumber.open(path).pages],
    [pdfplumber.__version__] and [traceback.format_exc()]. *)
Variable open_pdf : string -> result (list Page).
Variable plumber_version : string.
Variable format_exc : exn -> string.

(** Lines 318-337: the [except Exception] handler of [main]. *)
Definition main_failed (e : exn) : MainOutcome :=
  {| output_file :=
       Some (ErrorFile {| er_success := false;
                          er_error := exn_str e;
                          er_traceback := format_exc e;
                          er_tables := [] |});
     exit_code := 1;
     result_in_memory := None |}.

(** [main] with [sys.argv = argv].  The output file is written once, at
    line 267, with [result] as it is then; what is assigned to [result]
    afterwards stays in memory.  Writing the file is taken to succeed.
    The diagnostic pass of lines 286-310 reads the pages once more, after
    the [with] block; the page primitives answer as the page record says,
    an exception among them leading to the handler. *)
Definition main (argv : list string) : MainOutcome :=
  if negb ((List.length argv =? 3) || (List.length argv =? 4)) then
    {| output_file := None; exit_code := 1; result_in_memory := None |}
  else
    let pdf_path := nth 1 argv "" in
    let doc_type := if 3 <? List.length argv then nth 3 argv "" else "NVR" in
    match (pages <- open_pdf pdf_path ;;
           tbls <- extract_nvr_tables pages ;;
           ret (pages, tbls)) with
    | Raise e => main_failed e
    | Ok (pages, tbls) =>
        let result0 :=
          {| success := true;
             document_type := doc_type;
             tables := tbls;
             table_count := List.length tbls;
             metadata :=
               {| extractor_version := "2.0.0-nvr-specific";
                  pdfplumber_version := plumber_version;
                  extraction_type := "threatened_species_focus";
                  sections_extracted := map tableName tbls |};
             debug_info := None;
             error := None |} in
        let written := RunFile result0 in
        if List.length tbls =? 0 then
          match collect_debug_info pages with
          | Raise e => main_failed e
          | Ok dbg =>
              {| output_file := Some written;
                 exit_code := 0;
                 result_in_memory :=
                   Some {| success := false;
                           document_type := document_type result0;
                           tables := tables result0;
                           table_count := table_count result0;
                           metadata := metadata result0;
                           debug_info := Some dbg;
                           error := Some (no_tables_error dbg) |} |}
          end
        else
          {| output_file := Some written;
             exit_code := 0;
             result_in_memory := Some result0 |}
    end.

(** ** The HTTP driver [extractPdfTables] (python-functions/main.py) *)

(** The JSON body of the response. *)
Record Response : Type := mk_response {
  extractionId : string;
  status : string;
  r_tables : list TableInfo;
  r_table_count : option nat;       (* metadata.table_count *)
  r_message : option string;
  r_error : option string
}.

(** Lines 72-95 and 102-114: the extraction of a downloaded file and the
    response built from it, with its HTTP status. *)
Definition extractPdfTables_run (temp_path extraction_id : string)
  : Response * nat :=
  match (pages <- open_pdf temp_path ;; extract_nvr_tables pages) with
  | Ok tbls =>
      ({| extractionId := extraction_id;
          status := if List.length tbls =? 0
                    then "completed_no_tables" else "completed";
          r_tables := tbls;
          r_table_count := Some (List.length tbls);
          r_message := if List.length tbls =? 0
                       then Some "No NVR species tables found in document"
                       else None;
          r_error := None |}, 200)
  | Raise e =>
      ({| extractionId := extraction_id;
          status := "failed";
          r_tables := [];
          r_table_count := None;
          r_message := None;
          r_error := Some (exn_str e) |}, 500)
  end.

End Drivers.

(** ** A model of the pandas calls, for concrete runs

    The four formats of [parse_dates] use the directives [%d], [%m], [%b]
    and [%Y] and literal separators.  [strptime] below follows their
    documented meaning: [%d] is a day 01-31 (one digit allowed), [%m] a
    month 01-12 (one digit allowed), [%b] an English month abbreviation in
    any case, [%Y] four digits; the whole string must match; the date must
    exist and lie within the range of a nanosecond timestamp.  The lenient
    parser ([errors='coerce']) stays a parameter. *)
Module PandasModel.

Record date : Type := mk_date { year : nat; month : nat; day : nat }.

Inductive directive : Type :=
| dir_d | dir_m | dir_b | dir_Y
| dir_lit (c : ascii).

Fixpoint directives (fmt : string) : list directive :=
  match fmt with
  | EmptyString => []
  | String "%"%char (String "d"%char r) => dir_d :: directives r
  | String "%"%char (String "m"%char r) => dir_m :: directives r
  | String "%"%char (String "b"%char r) => dir_b :: directives r
  | String "%"%char (String "Y"%char r) => dir_Y :: directives r
  | String c r => dir_lit c :: directives r
  end.

Definition digit_of (c : ascii) : option nat :=
  let n := nat_of_ascii c in
  if (48 <=? n) && (n <=? 57) then Some (n - 48) else None.

(** The numbers a prefix of [s] can stand for, two digits before one,
    each with the rest of the string. *)
Definition two_then_one (lo hi : nat) (s : string) : list (nat * string) :=
  match s with
  | EmptyString => []
  | String c1 r1 =>
      match digit_of c1 with
      | None => []
      | Some d1 =>
          (match r1 with
           | String c2 r2 =>
               match digit_of c2 with
               | Some d2 =>
                   let n := 10 * d1 + d2 in
                   if (lo <=? n) && (n <=? hi) then [(n, r2)] else []
               | None => []
               end
           | EmptyString => []
           end)
          ++ (if (1 <=? d1) && (d1 <=? 9) then [(d1, r1)] else [])
      end
  end.

Definition four_digits (s : string) : list (nat * string) :=
  match s with
  | String c1 (String c2 (String c3 (String c4 r))) =>
      match digit_of c1, digit_of c2, digit_of c3, digit_of c4 with
      | Some a, Some b, Some c, Some d => [(1000 * a + 100 * b + 10 * c + d, r)]
      | _, _, _, _ => []
      end
  | _ => []
  end.

Definition month_abbreviations : list string :=
  ["jan"; "feb"; "mar"; "apr"; "may"; "jun";
   "jul"; "aug"; "sep"; "oct"; "nov"; "dec"].

Fixpoint index_of (x : string) (l : list string) (i : nat) : option nat :=
  match l with
  | [] => None
  | y :: l' => if String.eqb x y then Some i else index_of x l' (S i)
  end.

Definition month_abbreviation (s : string) : list (nat * string) :=
  match s with
  | String c1 (String c2 (String c3 r)) =>
      match index_of (lower (String c1 (String c2 (String c3 EmptyString))))
              month_abbreviations 1 with
      | Some m => [(m, r)]
      | None => []
      end
  | _ => []
  end.

Fixpoint first_some {A B : Type} (f : A -> option B) (l : list A) : option B :=
  match l with
  | [] => None
  | a :: l' => match f a with
               | Some b => Some b
               | None => first_some f l'
               end
  end.

(** The first complete match, alternatives tried in the order of the
    directive's pattern. *)
Fixpoint match_directives (ds : list directive) (s : string) (d : date)
  : option date :=
  match ds with
  | [] => if String.eqb s "" then Some d else None
  | dir_d :: ds' =>
      first_some (fun '(n, r) =>
                    match_directives ds' r {| year := year d; month := month d; day := n |})
        (two_then_one 1 31 s)
  | dir_m :: ds' =>
      first_some (fun '(n, r) =>
                    match_directives ds' r {| year := year d; month := n; day := day d |})
        (two_then_one 1 12 s)
  | dir_b :: ds' =>
      first_some (fun '(n, r) =>
                    match_directives ds' r {| year := year d; month := n; day := day d |})
        (month_abbreviation s)
  | dir_Y :: ds' =>
      first_some (fun '(n, r) =>
                    match_directives ds' r {| year := n; month := month d; day := day d |})
        (four_digits s)
  | dir_lit c :: ds' =>
      match s with
      | String c' r =>
          if Ascii.eqb (lower_char c') (lower_char c)
          then match_directives ds' r d else None
      | EmptyString => None
      end
  end.

Definition is_leap (y : nat) : bool :=
  ((y mod 4 =? 0) && negb (y mod 100 =? 0)) || (y mod 400 =? 0).

Definition days_in_month (y m : nat) : nat :=
  match m with
  | 2 => if is_leap y then 29 else 28
  | 4 | 6 | 9 | 11 => 30
  | _ => 31
  end.

(** Dates a nanosecond timestamp can hold at midnight:
    1677-09-22 to 2262-04-11. *)
Definition date_leb (a b : date) : bool :=
  (year a <? year b)
  || ((year a =? year b)
      && ((month a <? month b)
          || ((month a =? month b) && (day a <=? day b)))).

Definition in_bounds (d : date) : bool :=
  date_leb {| year := 1677; month := 9; day := 22 |} d
  && date_leb d {| year := 2262; month := 4; day := 11 |}.

Definition valid_date (d : date) : bool :=
  (1 <=? month d) && (month d <=? 12) && (1 <=? day d)
  && (day d <=? days_in_month (year d) (month d)) && in_bounds d.

Definition strptime (s fmt : string) : option date :=
  match match_directives (directives fmt) s {| year := 1900; month := 1; day := 1 |} with
  | Some d => if valid_date d then Some d else None
  | None => None
  end.

Definition pad2 (n : nat) : string :=
  ((if (n <? 10)%nat then "0" else "") ++ str_nat n)%string.

Definition pad4 (n : nat) : string :=
  ((if (n <? 10)%nat then "000" else if (n <? 100)%nat then "00"
    else if (n <? 1000)%nat then "0" else "") ++ str_nat n)%string.

(** [strftime('%d-%m-%Y')] *)
Definition strftime (d : date) : string :=
  (pad2 (day d) ++ "-" ++ pad2 (month d) ++ "-" ++ pad4 (year d))%string.

Definition pandas (lenient : string -> option date) : DateLib :=
  {| Timestamp := date;
     to_datetime_format := strptime;
     to_datetime_coerce := lenient;
     strftime_dmy := strftime |}.

End PandasModel.

(** ** Attribution counts

    How many table regions of a page land in a section: the quantity the
    page-number lists are compared with. *)

(** A table lands in the band when its bounding box passes the test of
    line 170 and its grid is non-empty. *)
Definition lands_in_band (top_boundary bottom_boundary : Q) (t : Table) : bool :=
  Qle_bool top_boundary (bbox_1 t) && Qle_bool (bbox_3 t) bottom_boundary
  && match extract t with
     | Ok (_ :: _) => true
     | _ => false
     end.

Definition count_landing (top_boundary bottom_boundary : Q) (ts : list Table) : nat :=
  List.length (filter (lands_in_band top_boundary bottom_boundary) ts).

(** Over the headings of kind [s], the tables landing in their bands. *)
Definition heading_count (s : SectionType) (hs : list Heading) (page_height : Q)
    (ts : list Table) : nat :=
  list_sum
    (map (fun ih : nat * Heading =>
            if SectionType_eqb (h_type (snd ih)) s
            then count_landing (h_bottom (snd ih))
                   (bottom_boundary_of hs page_height (fst ih)) ts
            else 0)
       (enumerate hs)).

(** A continuation table matches when its grid is non-empty and its first
    row is as long as the stored header. *)
Definition matches_header (hdr : Row) (t : Table) : bool :=
  match extract t with
  | Ok (first :: _) => List.length first =? List.length hdr
  | _ => false
  end.

(** The tables a headerless page hands to the running section: those
    before the first one that does not match. *)
Fixpoint leading_matches (hdr : Row) (ts : list Table) : list Table :=
  match ts with
  | [] => []
  | t :: ts' => if matches_header hdr t then t :: leading_matches hdr ts' else []
  end.

(** The rows of a matching continuation table that are kept. *)
Definition kept_rows (hdr : Row) (t : Table) : list Row :=
  match extract t with
  | Ok content => filter (fun row => negb (row_eqb row hdr)) content
  | Raise _ => []
  end.

(** [outputs] after the running section [last] has taken the tables [ts]
    of a headerless page, one after the other. *)
Definition absorb_tables (page_num : nat) (last : SectionType) (hdr : Row)
    (ts : list Table) (outputs : Outputs) : Outputs :=
  fold_left
    (fun o t =>
       match extract t with
       | Ok content =>
           set_section o last
             (absorb_continuation page_num hdr content (get_section o last))
       | Raise _ => o
       end)
    ts outputs.

(** The number of table regions of [page] attributed to section [s] when
    the page is processed in state [st]. *)
Definition absorbed (s : SectionType) (st : State) (page : Page) : nat :=
  match find_tables page lines_snap4, headers_of_page page with
  | Ok ts, Ok hs =>
      if truthy hs then heading_count s hs (height page) ts
      else
        match snd st with
        | Some last =>
            if SectionType_eqb last s then
              match header (get_section (fst st) last) with
              | Some (c :: hdr) => List.length (leading_matches (c :: hdr) ts)
              | _ => 0
              end
            else 0
        | None => 0
        end
  | _, _ => 0
  end.

(** A page without retained heading whose table detection returns. *)
Definition headerless (page : Page) : Prop :=
  headers_of_page page = Ok [] /\ exists ts, find_tables page lines_snap4 = Ok ts.

(** Reading order of headings: ascending [top]. *)
Definition top_le (a b : Heading) : Prop := (h_top a <= h_top b)%Q.


(** The stored header is not among the accumulated rows; a section
    without header has no rows. *)
Definition header_excluded (sec : Section) : Prop :=
  match header sec with
  | Some h => ~ In h (rows sec)
  | None => rows sec = []
  end.

Definition headers_excluded (o : Outputs) : Prop :=
  forall s, header_excluded (get_section o s).


(** The value of a call known to return. *)
Definition value_of (r : result Cell) : Cell :=
  match r with
  | Ok c => c
  | Raise _ => None
  end.

(** The record built from [row] for the header names [names], counted
    from column [k]. *)
Definition record_from {datelib : DateLib} (k : nat) (names : list string)
    (row : Row) : Dict :=
  map (fun jn : nat * string =>
         (Some (snd jn),
          value_of (clean_value (Some (snd jn)) (nth (fst jn) row None))))
    (combine (seq k (List.length names)) names).

(** ** Concrete pages and documents *)

Definition lookup_hits (tbl : list (string * list Hit)) (pat : string) : list Hit :=
  match find (fun kv => String.eqb (fst kv) pat) tbl with
  | Some kv => snd kv
  | None => []
  end.

(** A page all of whose primitives return. *)
Definition plain_page (ts : list Table) (tbl : list (string * list Hit)) (h : Q)
  : Page :=
  {| find_tables := fun _ => Ok ts;
     search := fun pat => Ok (lookup_hits tbl pat);
     height := h |}.

Definition grid3 (a b : string) : Grid :=
  [ [Some "Species"; Some "Status"; Some "Last Recorded"];
    [Some a; Some "v"; Some b] ].

Definition grid4 : Grid :=
  [ [Some "Species"; Some "Status"; Some "Last Recorded"; Some "Notes"];
    [Some "Quoll"; Some "e"; Some "2024-01-15"; Some "x"] ].

Definition vr_hit : Hit := {| hit_top := 50; hit_bottom := 60 |}.

(** Two plain headings, fauna at 100-110 and flora at 300-310, and one
    table whose bounding box ends exactly where the flora heading begins. *)
Definition table_touching : Table :=
  {| bbox := (0, 120, 500, 300)%Q; extract := Ok (grid3 "Wombat" "15-Jan-2024") |}.

Definition page_touching : Page :=
  plain_page [table_touching]
    [ (pat_verified_records, [vr_hit]);
      (pat_fauna, [ {| hit_top := 100; hit_bottom := 110 |} ]);
      (pat_flora, [ {| hit_top := 300; hit_bottom := 310 |} ]) ]
    800.

(** A fauna heading followed by one three-column table. *)
Definition page_fauna : Page :=
  plain_page [ {| bbox := (0, 120, 500, 400)%Q; extract := Ok (grid3 "Wombat" "15-Jan-2024") |} ]
    [ (pat_verified_records, [vr_hit]);
      (pat_fauna, [ {| hit_top := 100; hit_bottom := 110 |} ]) ]
    800.

(** A fauna heading followed by two tables in its band. *)
Definition page_two_tables : Page :=
  plain_page
    [ {| bbox := (0, 120, 500, 300)%Q; extract := Ok (grid3 "Wombat" "15-Jan-2024") |};
      {| bbox := (0, 320, 500, 600)%Q; extract := Ok (grid3 "Quoll" "15/01/2024") |} ]
    [ (pat_verified_records, [vr_hit]);
      (pat_fauna, [ {| hit_top := 100; hit_bottom := 110 |} ]) ]
    800.

(** Headerless pages. *)
Definition table_cont3 : Table :=
  {| bbox := (0, 40, 500, 300)%Q; extract := Ok (grid3 "Devil" "2024-01-15") |}.
Definition table_cont4 : Table :=
  {| bbox := (0, 320, 500, 600)%Q; extract := Ok grid4 |}.
Definition table_empty : Table :=
  {| bbox := (0, 320, 500, 600)%Q; extract := Ok [] |}.

Definition page_cont_match : Page := plain_page [table_cont3] [] 800.
Definition page_cont_mismatch : Page := plain_page [table_cont4] [] 800.
Definition page_cont_match_then_mismatch : Page :=
  plain_page [table_cont3; table_cont4] [] 800.
Definition page_cont_empty_then_match : Page :=
  plain_page [table_empty; table_cont3] [] 800.

(** A page with no table and no text hit. *)
Definition page_blank : Page := plain_page [] [] 800.


(** A page on which table detection raises. *)
Definition plumber_error : exn :=
  {| exn_type := "PDFSyntaxError"; exn_str := "No /Root object!" |}.

Definition page_faulty : Page :=
  {| find_tables := fun _ => Raise plumber_error;
     search := fun _ => Ok [];
     height := 800 |}.

(** The state in which a fauna section is running, after [page_fauna]. *)
Definition fauna_header : Row := [Some "Species"; Some "Status"; Some "Last Recorded"].

Definition fauna_running : State :=
  (set_section initial_outputs fauna
     {| rows := [[Some "Wombat"; Some "v"; Some "15-Jan-2024"]];
        header := Some fauna_header;
        page_numbers := [1] |},
   Some fauna).

(** The pandas model with a lenient parser that recognises nothing. *)
Definition pandas_strict : DateLib := PandasModel.pandas (fun _ => None).

(** ** The HTTP entry point and the downloads (python-functions/main.py) *)

(** [s[n:]] *)
Fixpoint string_drop (n : nat) (s : string) : string :=
  match n, s with
  | O, _ => s
  | S n', String _ s' => string_drop n' s'
  | S _, EmptyString => EmptyString
  end.

(** The text before the first [sep] and, if there is one, the text after
    it. *)
Fixpoint cut_at (sep : ascii) (s : string) : string * option string :=
  match s with
  | EmptyString => (EmptyString, None)
  | String c s' =>
      if Ascii.eqb c sep then (EmptyString, Some s')
      else let (before, after) := cut_at sep s' in (String c before, after)
  end.

(** [s.split(sep, 1)] for a one-character separator. *)
Definition split_once (sep : ascii) (s : string) : list string :=
  match cut_at sep s with
  | (before, Some after) => [before; after]
  | (before, None) => [before]
  end.

Definition value_error (msg : string) : exn :=
  {| exn_type := "ValueError"; exn_str := msg |}.

(** The request body as [request.get_json(silent=True)] returns it: a
    dictionary with string values, or [None]. *)
Definition JsonBody : Type := list (string * string).

(** [d.get(key)] *)
Fixpoint json_get (d : JsonBody) (key : string) : option string :=
  match d with
  | [] => None
  | (k, v) :: d' => if String.eqb k key then Some v else json_get d' key
  end.

(** [d.get(key, default)] *)
Definition json_get_default (d : JsonBody) (key default : string) : string :=
  match json_get d key with
  | Some v => v
  | None => default
  end.

(** What the function returns: [{'error': msg}] or the result
    dictionary. *)
Inductive Body : Type :=
| ErrorBody (msg : string)
| ResultBody (r : Response).

Section Http.
Context {datelib : DateLib}.

(** The surroundings: the content of a downloaded file, the Cloud Storage
    download of a blob of a bucket, the HTTP download of a URL (with
    [raise_for_status]), [pdfplumber.open] on the downloaded file, and the
    name of the temporary file. *)
Variable Bytes : Type.
Variable gcs_get : string -> string -> result Bytes.
Variable http_get : string -> result Bytes.
Variable open_bytes : Bytes -> result (list Page).
Variable temp_path : string.

(** Lines 117-136. *)
Definition download_from_gcs (gs_url : string) : result Bytes :=
  if negb (String.prefix "gs://" gs_url) then
    Raise (value_error ("Invalid GCS URL: " ++ gs_url))
  else
    match split_once "/"%char (string_drop 5 gs_url) with
    | [bucket_name; blob_name] => gcs_get bucket_name blob_name
    | _ => Raise (value_error ("Invalid GCS URL format: " ++ gs_url))
    end.

(** Lines 139-150. *)
Definition download_from_url (http_url : string) : result Bytes :=
  http_get http_url.

(** Lines 102-114: the [except Exception] handler. *)
Definition request_failed (extraction_id : string) (e : exn) : Body * nat :=
  (ResultBody {| extractionId := extraction_id;
                 status := "failed";
                 r_tables := [];
                 r_table_count := None;
                 r_message := None;
                 r_error := Some (exn_str e) |}, 500).

(** Lines 38-114: [extractPdfTables] on the parsed request body. *)
Definition extractPdfTables (request_json : option JsonBody) : Body * nat :=
  match request_json with
  | None | Some [] => (ErrorBody "No JSON body provided", 400)
  | Some d =>
      let file_url := json_get d "fileUrl" in
      let extraction_id := json_get_default d "extractionId" "default" in
      match file_url with
      | None | Some EmptyString => (ErrorBody "fileUrl is required", 400)
      | Some url =>
          let extract_from (download : result Bytes) : Body * nat :=
            match download with
            | Raise e => request_failed extraction_id e
            | Ok content =>
                let (r, code) :=
                  extractPdfTables_run (fun _ => open_bytes content)
                    temp_path extraction_id in
                (ResultBody r, code)
            end in
          if String.prefix "gs://" url then extract_from (download_from_gcs url)
          else if String.prefix "http" url then extract_from (download_from_url url)
          else (ErrorBody "Unsupported file URL format", 400)
      end
  end.

End Http.

(** ** Further notions used in the properties *)

(** A headerless page on which no table is detected. *)
Definition tableless (page : Page) : Prop :=
  headers_of_page page = Ok [] /\ find_tables page lines_snap4 = Ok [].

(** A heading whose hit has its top above its bottom (or level with it). *)
Definition upright (h : Heading) : Prop := (h_top h <= h_bottom h)%Q.

(** [new] holds what [old] held and possibly more: the header, once set,
    is kept; rows and page numbers are only appended. *)
Definition section_grows (old new : Section) : Prop :=
  (forall h, header old = Some h -> header new = Some h) /\
  (exists added, rows new = rows old ++ added) /\
  (exists added, page_numbers new = page_numbers old ++ added).

(** The header of a section is set exactly when a table was attributed to
    it, and rows exist only under a header. *)
Definition section_consistent (sec : Section) : Prop :=
  (header sec = None <-> page_numbers sec = []) /\
  (header sec = None -> rows sec = []).

(** The test of line 203: the section goes to the output. *)
Definition is_populated (o : Outputs) (s : SectionType) : bool :=
  match rows (get_section o s), header (get_section o s) with
  | _ :: _, Some (_ :: _) => true
  | _, _ => false
  end.

(** [d.get(k)] on a record. *)
Fixpoint dict_lookup (d : Dict) (k : Cell) : option Cell :=
  match d with
  | [] => None
  | (k', v') :: d' => if cell_eqb k' k then Some v' else dict_lookup d' k
  end.

(** [c in s] for a character. *)
Fixpoint mem_char (c : ascii) (s : string) : bool :=
  match s with
  | EmptyString => false
  | String c' s' => Ascii.eqb c' c || mem_char c s'
  end.


(** A flora heading at 100-110 with one table above it, whose grid cannot
    be extracted. *)
Definition table_above : Table :=
  {| bbox := (0, 40, 500, 95)%Q; extract := Raise plumber_error |}.

Definition page_table_above_heading : Page :=
  plain_page [table_above]
    [ (pat_verified_records, [vr_hit]);
      (pat_flora, [ {| hit_top := 100; hit_bottom := 110 |} ]) ]
    800.

(** What every assembled table satisfies. *)
Definition table_well_formed (t : TableInfo) : Prop :=
  headers t <> [] /\
  t_rows t <> [] /\
  record_count t = List.length (processed_data t) /\
  List.length (processed_data t) = List.length (t_rows t) /\
  Forall (fun row => List.length row = List.length (headers t)) (t_rows t) /\
  mergedCells t = [] /\
  t_bbox t = [0; 0; 0; 0].

(** * Properties *)

(** ** Basic facts *)

Lemma cell_eqb_eq (a b : Cell) : cell_eqb a b = true <-> a = b.
Proof.
  destruct a as [x|], b as [y|]; simpl; try (split; congruence).
  rewrite String.eqb_eq. split; congruence.
Qed.

Lemma row_eqb_eq (r1 r2 : Row) : row_eqb r1 r2 = true <-> r1 = r2.
Proof.
  revert r2. induction r1 as [|a r1 IH]; intros [|b r2]; simpl;
    try (split; congruence).
  rewrite andb_true_iff, cell_eqb_eq, IH. split.
  - intros [-> ->]. reflexivity.
  - intros H. injection H as -> ->. split; reflexivity.
Qed.

Lemma row_eqb_refl (r : Row) : row_eqb r r = true.
Proof. apply row_eqb_eq. reflexivity. Qed.

Lemma SectionType_eqb_eq (a b : SectionType) : SectionType_eqb a b = true <-> a = b.
Proof. destruct a, b; simpl; split; congruence. Qed.

Lemma SectionType_eqb_neq (a b : SectionType) : SectionType_eqb a b = false <-> a <> b.
Proof. destruct a, b; simpl; split; congruence. Qed.

Lemma get_set_same (o : Outputs) (s : SectionType) (v : Section) :
  get_section (set_section o s v) s = v.
Proof. destruct s; reflexivity. Qed.

Lemma get_set_other (o : Outputs) (s s' : SectionType) (v : Section) :
  s <> s' -> get_section (set_section o s v) s' = get_section o s'.
Proof. destruct s, s'; simpl; congruence. Qed.

Lemma for_each_app {A S : Type} (f : S -> A -> result S) (l1 l2 : list A) (s : S) :
  for_each f (l1 ++ l2) s = (s' <- for_each f l1 s ;; for_each f l2 s').
Proof.
  revert s. induction l1 as [|a l1 IH]; intros s; simpl.
  - reflexivity.
  - destruct (f s a) as [s1|e]; simpl; [apply IH | reflexivity].
Qed.


(** ** Heading bands *)

Lemma app_one_neq {A : Type} (l : list A) (a : A) : l ++ [a] <> l.
Proof.
  intros H. apply (f_equal (@List.length A)) in H.
  rewrite length_app in H. simpl in H. lia.
Qed.

(** ** Continuation pages *)

Lemma continuation_tables_cut (page_num : nat) (last : SectionType) (hdr : Row)
    (pre post : list Table) (t : Table) (outputs : Outputs) :
  matches_header hdr t = false ->
  continuation_tables page_num last hdr (pre ++ t :: post) outputs
  = continuation_tables page_num last hdr (pre ++ [t]) outputs.
Proof.
  intros Ht. revert outputs.
  induction pre as [|x pre IH]; intros outputs; simpl.
  - unfold matches_header in Ht.
    destruct (extract t) as [[|first more]|e]; simpl; try reflexivity.
    rewrite Ht. reflexivity.
  - destruct (extract x) as [[|first more]|e]; simpl; try reflexivity.
    destruct (List.length first =? List.length hdr); [apply IH | reflexivity].
Qed.

Lemma continuation_tables_spec (page_num : nat) (last : SectionType) (hdr : Row)
    (ts : list Table) (outputs : Outputs) (st' : State) :
  continuation_tables page_num last hdr ts outputs = Ok st' ->
  fst st' = absorb_tables page_num last hdr (leading_matches hdr ts) outputs /\
  snd st' = if List.length (leading_matches hdr ts) =? List.length ts
            then Some last else None.
Proof.
  revert outputs. induction ts as [|t ts IH]; intros outputs; simpl.
  - intros H. injection H as <-. split; reflexivity.
  - unfold matches_header.
    destruct (extract t) as [[|first more]|e] eqn:Et; simpl; try discriminate.
    + intros H. injection H as <-. split; reflexivity.
    + destruct (List.length first =? List.length hdr) eqn:El; simpl.
      * rewrite Et. intros H. apply IH in H. exact H.
      * intros H. injection H as <-. split; reflexivity.
Qed.

Lemma leading_matches_length (hdr : Row) (ts : list Table) :
  List.length (leading_matches hdr ts) <= List.length ts.
Proof.
  induction ts as [|t ts IH]; simpl; [lia|].
  destruct (matches_header hdr t); simpl; lia.
Qed.

Lemma leading_matches_Forall (hdr : Row) (ts : list Table) :
  Forall (fun x => matches_header hdr x = true) (leading_matches hdr ts).
Proof.
  induction ts as [|t ts IH]; simpl; [constructor|].
  destruct (matches_header hdr t) eqn:E; constructor; assumption.
Qed.

Lemma absorb_tables_other (page_num : nat) (last s : SectionType) (hdr : Row)
    (ts : list Table) (outputs : Outputs) :
  s <> last ->
  get_section (absorb_tables page_num last hdr ts outputs) s = get_section outputs s.
Proof.
  intros Hs. revert outputs. unfold absorb_tables.
  induction ts as [|t ts IH]; intros outputs; simpl; [reflexivity|].
  rewrite IH. destruct (extract t); [|reflexivity].
  apply get_set_other. congruence.
Qed.

Lemma absorb_tables_last (page_num : nat) (last : SectionType) (hdr : Row)
    (ts : list Table) (outputs : Outputs) :
  Forall (fun x => matches_header hdr x = true) ts ->
  let sec := get_section outputs last in
  get_section (absorb_tables page_num last hdr ts outputs) last
  = {| rows := rows sec ++ flat_map (kept_rows hdr) ts;
       header := header sec;
       page_numbers := page_numbers sec ++ repeat page_num (List.length ts) |}.
Proof.
  intros Hall. revert outputs. unfold absorb_tables.
  induction Hall as [|t ts Ht _ IH]; intros outputs; simpl.
  - rewrite !app_nil_r. destruct (get_section outputs last); reflexivity.
  - unfold matches_header in Ht. unfold kept_rows at 1.
    destruct (extract t) as [content|e]; [|discriminate].
    rewrite IH, get_set_same. simpl.
    rewrite <- !app_assoc. reflexivity.
Qed.

Lemma continuation_tables_stop (page_num : nat) (last : SectionType) (hdr : Row)
    (pre post : list Table) (t : Table) (content : Grid) (outputs : Outputs) :
  Forall (fun x => matches_header hdr x = true) pre ->
  extract t = Ok content ->
  matches_header hdr t = false ->
  continuation_tables page_num last hdr (pre ++ t :: post) outputs
  = Ok (absorb_tables page_num last hdr pre outputs, None).
Proof.
  intros Hpre Hext Hmis. revert outputs.
  induction Hpre as [|x pre Hx _ IH]; intros outputs; simpl.
  - unfold matches_header in Hmis. rewrite Hext in *. simpl.
    destruct content as [|first more]; [reflexivity|].
    rewrite Hmis. reflexivity.
  - unfold matches_header in Hx.
    destruct (extract x) as [[|f m]|e'] eqn:Ex; try discriminate.
    simpl. rewrite Hx, IH. reflexivity.
Qed.

Lemma process_page_idle (outputs : Outputs) (page_num : nat) (page : Page) :
  headerless page ->
  process_page (outputs, None) (page_num, page) = Ok (outputs, None).
Proof.
  intros [Hh [ts Ht]]. unfold process_page. rewrite Ht, Hh. reflexivity.
Qed.

Lemma idle_pages_absorb_nothing (outputs : Outputs) (later : list (nat * Page)) :
  Forall (fun np => headerless (snd np)) later ->
  for_each process_page later (outputs, None) = Ok (outputs, None).
Proof.
  induction 1 as [|[n p] later Hp _ IH]; cbn [for_each]; [reflexivity|].
  rewrite (process_page_idle outputs n p Hp). exact IH.
Qed.

Lemma process_page_continuation (outputs : Outputs) (last : SectionType)
    (page_num : nat) (page : Page) (ts : list Table) (c : Cell) (hdr : Row) :
  headers_of_page page = Ok [] ->
  find_tables page lines_snap4 = Ok ts ->
  ts <> [] ->
  header (get_section outputs last) = Some (c :: hdr) ->
  process_page (outputs, Some last) (page_num, page)
  = continuation_tables page_num last (c :: hdr) ts outputs.
Proof.
  intros Hh Ht Hne Hhdr. unfold process_page. rewrite Ht, Hh. simpl.
  destruct ts; [congruence|]. simpl truthy. cbv iota.
  rewrite Hhdr. reflexivity.
Qed.

(** C5 (as amended): on a headerless page processed while a running
    section with a stored header is active, a table region whose first row
    is not as long as the stored header clears the running-section state;
    that region and the regions after it contribute nothing, the matching
    regions before it on the page have been appended to the running
    section (none when the mismatching region comes first), other sections
    are untouched, and the headerless pages that follow are not absorbed. *)
Theorem continuation_mismatch_clears_running_section
    (outputs : Outputs) (last : SectionType) (page_num : nat) (page : Page)
    (pre post : list Table) (t : Table) (c : Cell) (hdr : Row)
    (first : Row) (more : Grid) :
  headers_of_page page = Ok [] ->
  find_tables page lines_snap4 = Ok (pre ++ t :: post) ->
  header (get_section outputs last) = Some (c :: hdr) ->
  Forall (fun x => matches_header (c :: hdr) x = true) pre ->
  extract t = Ok (first :: more) ->
  List.length first <> List.length (c :: hdr) ->
  let outputs' := absorb_tables page_num last (c :: hdr) pre outputs in
  process_page (outputs, Some last) (page_num, page) = Ok (outputs', None) /\
  (pre = [] -> outputs' = outputs) /\
  (forall s, s <> last -> get_section outputs' s = get_section outputs s) /\
  rows (get_section outputs' last)
  = rows (get_section outputs last) ++ flat_map (kept_rows (c :: hdr)) pre /\
  header (get_section outputs' last) = Some (c :: hdr) /\
  (forall later, Forall (fun np => headerless (snd np)) later ->
     for_each process_page later (outputs', None) = Ok (outputs', None)).
Proof.
  intros Hh Ht Hhdr Hpre Hext Hlen outputs'.
  assert (Hmis : matches_header (c :: hdr) t = false).
  { unfold matches_header. rewrite Hext. apply Nat.eqb_neq. exact Hlen. }
  split; [|split; [|split; [|split; [|split]]]].
  - rewrite (process_page_continuation outputs last page_num page
               (pre ++ t :: post) c hdr Hh Ht); [| |exact Hhdr].
    + apply (continuation_tables_stop _ _ _ _ _ _ _ _ Hpre Hext Hmis).
    + destruct pre; discriminate.
  - intros ->. reflexivity.
  - intros s Hs. apply absorb_tables_other. exact Hs.
  - unfold outputs'. rewrite (absorb_tables_last _ _ _ _ _ Hpre). reflexivity.
  - unfold outputs'. rewrite (absorb_tables_last _ _ _ _ _ Hpre). exact Hhdr.
  - intros later Hlater. apply idle_pages_absorb_nothing. exact Hlater.
Qed.

Lemma continuation_mismatch_clears_running_section_witness :
  process_page fauna_running (2, page_cont_mismatch) = Ok (fst fauna_running, None)
  /\ for_each process_page [(3, page_cont_match)] (fst fauna_running, None)
     = Ok (fst fauna_running, None).
Proof.
  destruct (continuation_mismatch_clears_running_section
              (fst fauna_running) fauna 2 page_cont_mismatch [] [] table_cont4
              (Some "Species") [Some "Status"; Some "Last Recorded"]
              [Some "Species"; Some "Status"; Some "Last Recorded"; Some "Notes"]
              [[Some "Quoll"; Some "e"; Some "2024-01-15"; Some "x"]]
              eq_refl eq_refl eq_refl (Forall_nil _) eq_refl
              ltac:(simpl; lia))
    as (Hrun & _ & _ & _ & _ & Hlater).
  split.
  - exact Hrun.
  - apply Hlater. repeat constructor. exists [table_cont3]. reflexivity.
Defined.

(** C5 (as stated) fails: when a matching table precedes the mismatching
    one on the page, the page has contributed rows to the running section
    by the time the state is cleared. *)
Lemma mismatch_after_match_keeps_rows :
  scan_pages [page_fauna] = Ok fauna_running
  /\ headers_of_page page_cont_match_then_mismatch = Ok []
  /\ find_tables page_cont_match_then_mismatch lines_snap4
     = Ok [table_cont3; table_cont4]
  /\ header (get_section (fst fauna_running) fauna) = Some fauna_header
  /\ matches_header fauna_header table_cont4 = false
  /\ exists st',
       process_page fauna_running (2, page_cont_match_then_mismatch) = Ok st' /\
       scan_pages [page_fauna; page_cont_match_then_mismatch] = Ok st' /\
       snd st' = None /\
       rows (get_section (fst st') fauna)
       = rows (get_section (fst fauna_running) fauna)
         ++ [[Some "Devil"; Some "v"; Some "2024-01-15"]] /\
       page_numbers (get_section (fst st') fauna) = [1; 2].
Proof.
  split; [vm_compute; reflexivity|].
  split; [reflexivity|].
  split; [reflexivity|].
  split; [reflexivity|].
  split; [reflexivity|].
  eexists. split; [vm_compute; reflexivity|].
  split; [vm_compute; reflexivity|].
  repeat split.
Qed.

(** C10: on a headerless page processed while a running section with a
    stored header is active, a table region with an empty grid ends the
    table loop as a column-count mismatch does: the outcome does not depend
    on the regions after it (they are not examined), and when the page
    returns, the running-section state is cleared and the running section
    holds what the matching regions before the first failure gave it. *)
Theorem empty_grid_ends_continuation
    (outputs : Outputs) (last : SectionType) (page_num : nat) (page : Page)
    (pre post : list Table) (t : Table) (c : Cell) (hdr : Row) :
  headers_of_page page = Ok [] ->
  find_tables page lines_snap4 = Ok (pre ++ t :: post) ->
  header (get_section outputs last) = Some (c :: hdr) ->
  extract t = Ok [] ->
  process_page (outputs, Some last) (page_num, page)
  = continuation_tables page_num last (c :: hdr) (pre ++ [t]) outputs /\
  (forall st',
     process_page (outputs, Some last) (page_num, page) = Ok st' ->
     snd st' = None /\
     fst st' = absorb_tables page_num last (c :: hdr)
                 (leading_matches (c :: hdr) pre) outputs /\
     (forall s, s <> last -> get_section (fst st') s = get_section outputs s) /\
     rows (get_section (fst st') last)
     = rows (get_section outputs last)
       ++ flat_map (kept_rows (c :: hdr)) (leading_matches (c :: hdr) pre)) /\
  (Forall (fun x => matches_header (c :: hdr) x = true) pre ->
   process_page (outputs, Some last) (page_num, page)
   = Ok (absorb_tables page_num last (c :: hdr) pre outputs, None)).
Proof.
  intros Hh Ht Hhdr Hext.
  assert (Hmis : matches_header (c :: hdr) t = false).
  { unfold matches_header. rewrite Hext. reflexivity. }
  assert (Hrun : process_page (outputs, Some last) (page_num, page)
                 = continuation_tables page_num last (c :: hdr) (pre ++ [t]) outputs).
  { rewrite (process_page_continuation outputs last page_num page
               (pre ++ t :: post) c hdr Hh Ht); [| |exact Hhdr].
    - apply continuation_tables_cut. exact Hmis.
    - destruct pre; discriminate. }
  assert (Hlead : leading_matches (c :: hdr) (pre ++ [t])
                  = leading_matches (c :: hdr) pre).
  { clear -Hmis. induction pre as [|x pre IH]; simpl.
    - rewrite Hmis. reflexivity.
    - destruct (matches_header (c :: hdr) x); [rewrite IH|]; reflexivity. }
  split; [exact Hrun|]. split.
  - intros st' Hst. rewrite Hrun in Hst.
    destruct (continuation_tables_spec _ _ _ _ _ _ Hst) as [H1 H2].
    rewrite Hlead in H1, H2.
    assert (Hnone : snd st' = None).
    { rewrite H2.
      replace (List.length (leading_matches (c :: hdr) pre) =? List.length (pre ++ [t]))
        with false; [reflexivity|].
      symmetry. apply Nat.eqb_neq. rewrite length_app. simpl.
      pose proof (leading_matches_length (c :: hdr) pre). lia. }
    split; [exact Hnone|]. split; [exact H1|]. split.
    + intros s Hs. rewrite H1. apply absorb_tables_other. exact Hs.
    + rewrite H1.
      rewrite (absorb_tables_last _ _ _ _ _ (leading_matches_Forall (c :: hdr) pre)).
      reflexivity.
  - intros Hpre. rewrite Hrun.
    apply (continuation_tables_stop _ _ _ _ _ _ _ _ Hpre Hext Hmis).
Qed.

Lemma empty_grid_ends_continuation_witness :
  process_page fauna_running (2, page_cont_empty_then_match)
  = Ok (fst fauna_running, None).
Proof.
  destruct (empty_grid_ends_continuation
              (fst fauna_running) fauna 2 page_cont_empty_then_match
              [] [table_cont3] table_empty
              (Some "Species") [Some "Status"; Some "Last Recorded"]
              eq_refl eq_refl eq_refl eq_refl)
    as (_ & _ & Hok).
  exact (Hok (Forall_nil _)).
Defined.

(** ** Heading detection *)



Lemma insert_by_top_HdRel (a h : Heading) (l : list Heading) :
  top_le a h -> HdRel top_le a l -> HdRel top_le a (insert_by_top h l).
Proof.
  intros Hah Hal. destruct l as [|x l]; simpl; [constructor; exact Hah|].
  destruct (Qle_bool (h_top h) (h_top x)); constructor.
  - exact Hah.
  - inversion Hal; assumption.
Qed.

Lemma insert_by_top_sorted (h : Heading) (l : list Heading) :
  Sorted top_le l -> Sorted top_le (insert_by_top h l).
Proof.
  induction 1 as [|x l Hs IH Hhd]; simpl.
  - repeat constructor.
  - destruct (Qle_bool (h_top h) (h_top x)) eqn:E.
    + constructor; [constructor; assumption|].
      constructor. apply Qle_bool_iff. exact E.
    + constructor; [exact IH|].
      apply insert_by_top_HdRel; [|exact Hhd].
      unfold top_le. apply Qlt_le_weak, Qnot_le_lt. intros Hle.
      apply Qle_bool_iff in Hle. congruence.
Qed.

Lemma sort_by_top_sorted (l : list Heading) : Sorted top_le (sort_by_top l).
Proof.
  induction l as [|h l IH]; simpl; [constructor|].
  apply insert_by_top_sorted. exact IH.
Qed.









(** ** The stored header stays out of the rows *)

Lemma for_each_invariant {A S : Type} (P : S -> Prop) (f : S -> A -> result S)
    (l : list A) :
  (forall s a s', P s -> f s a = Ok s' -> P s') ->
  forall s s', P s -> for_each f l s = Ok s' -> P s'.
Proof.
  intros Hstep. induction l as [|a l IH]; intros s s' Hs; simpl.
  - intros H. injection H as <-. exact Hs.
  - destruct (f s a) as [s1|e] eqn:E; simpl; [|discriminate].
    apply IH. apply (Hstep s a s1 Hs E).
Qed.

Lemma not_in_filter_neq (hdr : Row) (content : Grid) :
  ~ In hdr (filter (fun row => negb (row_eqb row hdr)) content).
Proof.
  intros H. apply filter_In in H. destruct H as [_ H].
  rewrite row_eqb_refl in H. discriminate.
Qed.

Lemma absorb_heading_table_excluded (page_num : nat) (content : Grid) (sec : Section) :
  header_excluded sec -> header_excluded (absorb_heading_table page_num content sec).
Proof.
  unfold header_excluded, absorb_heading_table.
  destruct content as [|first more]; [auto|]. cbn [header rows].
  intros Hsec Hin. apply in_app_or in Hin. destruct Hin as [Hin|Hin].
  - destruct (header sec) as [h|]; [exact (Hsec Hin)|].
    rewrite Hsec in Hin. destruct Hin.
  - exact (not_in_filter_neq _ _ Hin).
Qed.

Lemma absorb_continuation_excluded (page_num : nat) (hdr : Row) (content : Grid)
    (sec : Section) :
  header sec = Some hdr ->
  header_excluded sec ->
  header_excluded (absorb_continuation page_num hdr content sec).
Proof.
  unfold header_excluded, absorb_continuation. cbn [header rows].
  intros Hh. rewrite Hh. intros Hsec Hin.
  apply in_app_or in Hin. destruct Hin as [Hin|Hin]; [exact (Hsec Hin)|].
  exact (not_in_filter_neq _ _ Hin).
Qed.

Lemma set_section_excluded (o : Outputs) (s : SectionType) (v : Section) :
  headers_excluded o -> header_excluded v -> headers_excluded (set_section o s v).
Proof.
  intros Ho Hv s'. destruct (SectionType_eqb s s') eqn:E.
  - apply SectionType_eqb_eq in E. subst. rewrite get_set_same. exact Hv.
  - apply SectionType_eqb_neq in E. rewrite get_set_other by exact E. apply Ho.
Qed.

Lemma band_table_excluded (page_num : nat) (ty : SectionType) (top bottom : Q)
    (o o' : Outputs) (t : Table) :
  headers_excluded o -> band_table page_num ty top bottom o t = Ok o' ->
  headers_excluded o'.
Proof.
  intros Ho. unfold band_table.
  destruct (Qle_bool top (bbox_1 t) && Qle_bool (bbox_3 t) bottom).
  - destruct (extract t) as [content|e]; simpl; [|discriminate].
    destruct (truthy content); intros H; injection H as <-; [|exact Ho].
    apply set_section_excluded; [exact Ho|].
    apply absorb_heading_table_excluded. apply Ho.
  - intros H. injection H as <-. exact Ho.
Qed.

Lemma band_heading_excluded (page_num : nat) (hs : list Heading) (page_height : Q)
    (ts : list Table) (st st' : State) (ih : nat * Heading) :
  headers_excluded (fst st) ->
  band_heading page_num hs page_height ts st ih = Ok st' ->
  headers_excluded (fst st').
Proof.
  intros Hst. destruct ih as [i hd]. unfold band_heading.
  destruct (for_each _ ts (fst st)) as [o|e] eqn:E; simpl; [|discriminate].
  intros H. injection H as <-. simpl.
  revert E. apply for_each_invariant; [|exact Hst].
  intros s a s'. apply band_table_excluded.
Qed.

Lemma continuation_tables_header (page_num : nat) (last : SectionType) (hdr : Row)
    (ts : list Table) (o : Outputs) (st' : State) :
  header (get_section o last) = Some hdr ->
  headers_excluded o ->
  continuation_tables page_num last hdr ts o = Ok st' ->
  headers_excluded (fst st').
Proof.
  revert o. induction ts as [|t ts IH]; intros o Hh Ho; simpl.
  - intros H. injection H as <-. exact Ho.
  - destruct (extract t) as [[|first more]|e]; simpl; try discriminate.
    + intros H. injection H as <-. exact Ho.
    + destruct (List.length first =? List.length hdr).
      * apply IH.
        -- rewrite get_set_same. exact Hh.
        -- apply set_section_excluded; [exact Ho|].
           apply absorb_continuation_excluded; [exact Hh | apply Ho].
      * intros H. injection H as <-. exact Ho.
Qed.

Lemma process_page_excluded (st st' : State) (np : nat * Page) :
  headers_excluded (fst st) -> process_page st np = Ok st' ->
  headers_excluded (fst st').
Proof.
  destruct st as [o last], np as [n page]. simpl fst. intros Ho.
  unfold process_page.
  destruct (find_tables page lines_snap4) as [ts|e]; simpl; [|discriminate].
  destruct (headers_of_page page) as [hs|e]; simpl; [|discriminate].
  destruct (truthy hs).
  - apply (for_each_invariant (fun s : State => headers_excluded (fst s))).
    + intros s a s'. apply band_heading_excluded.
    + exact Ho.
  - destruct last as [last|]; [|intros H; injection H as <-; exact Ho].
    destruct (truthy ts); [|intros H; injection H as <-; exact Ho].
    destruct (header (get_section o last)) as [[|c hdr]|] eqn:Eh;
      try (intros H; injection H as <-; exact Ho).
    apply continuation_tables_header; assumption.
Qed.

Lemma initial_outputs_excluded : headers_excluded initial_outputs.
Proof. intros s. destruct s; reflexivity. Qed.

(** C9: at every point of a document scan (after any sequence of pages,
    repeated pages included), a section whose header is set has no row
    equal to that header among its accumulated rows; a table taken in a
    heading band or as a continuation adds its rows without those equal to
    the header, and leaves a header that is set as it is. *)
Theorem stored_header_never_among_rows (pages : list Page) (st : State) :
  scan_pages pages = Ok st ->
  (forall s h, header (get_section (fst st) s) = Some h ->
     ~ In h (rows (get_section (fst st) s))) /\
  (forall page_num content sec h, header sec = Some h ->
     header (absorb_heading_table page_num content sec) = Some h /\
     rows (absorb_heading_table page_num content sec)
     = rows sec ++ filter (fun row => negb (row_eqb row h)) content /\
     ~ In h (filter (fun row => negb (row_eqb row h)) content)) /\
  (forall page_num content sec h, header sec = Some h ->
     header (absorb_continuation page_num h content sec) = Some h /\
     rows (absorb_continuation page_num h content sec)
     = rows sec ++ filter (fun row => negb (row_eqb row h)) content).
Proof.
  intros Hscan. split; [|split].
  - assert (H : headers_excluded (fst st)).
    { revert Hscan. unfold scan_pages.
      apply (for_each_invariant (fun s : State => headers_excluded (fst s))).
      - intros s a s'. apply process_page_excluded.
      - exact initial_outputs_excluded. }
    intros s h Hh. specialize (H s). unfold header_excluded in H.
    rewrite Hh in H. exact H.
  - intros page_num content sec h Hh. unfold absorb_heading_table.
    destruct content as [|first more].
    + simpl. rewrite app_nil_r. auto.
    + cbn [header rows]. rewrite Hh. repeat split. apply not_in_filter_neq.
  - intros page_num content sec h Hh. unfold absorb_continuation.
    cbn [header rows]. auto.
Qed.

Lemma stored_header_never_among_rows_witness :
  exists st,
    scan_pages [page_fauna; page_fauna; page_cont_match] = Ok st /\
    header (get_section (fst st) fauna) = Some fauna_header /\
    List.length (rows (get_section (fst st) fauna)) = 3 /\
    ~ In fauna_header (rows (get_section (fst st) fauna)).
Proof.
  eexists. split; [vm_compute; reflexivity|].
  split; [reflexivity|]. split; [reflexivity|].
  refine (proj1 (stored_header_never_among_rows
                   [page_fauna; page_fauna; page_cont_match] _ _) fauna fauna_header _).
  - vm_compute. reflexivity.
  - reflexivity.
Defined.

(** ** Page numbers of a section *)

Lemma for_each_invariant_in {A S : Type} (P : S -> Prop) (f : S -> A -> result S)
    (l : list A) :
  (forall s a s', In a l -> P s -> f s a = Ok s' -> P s') ->
  forall s s', P s -> for_each f l s = Ok s' -> P s'.
Proof.
  induction l as [|a l IH]; intros Hstep s s' Hs; simpl.
  - intros H. injection H as <-. exact Hs.
  - destruct (f s a) as [s1|e] eqn:E; simpl; [|discriminate].
    apply IH.
    + intros s2 b s3 Hb. apply Hstep. right. exact Hb.
    + apply (Hstep s a s1 (or_introl eq_refl) Hs E).
Qed.

Lemma band_table_pages (page_num : nat) (ty : SectionType) (top bottom : Q)
    (o o' : Outputs) (t : Table) (s : SectionType) :
  band_table page_num ty top bottom o t = Ok o' ->
  page_numbers (get_section o' s)
  = page_numbers (get_section o s)
    ++ repeat page_num
         (if SectionType_eqb ty s
          then (if lands_in_band top bottom t then 1 else 0) else 0).
Proof.
  unfold band_table, lands_in_band.
  destruct (Qle_bool top (bbox_1 t) && Qle_bool (bbox_3 t) bottom); simpl.
  - destruct (extract t) as [[|first more]|e]; simpl; try discriminate.
    + intros H. injection H as <-.
      destruct (SectionType_eqb ty s); simpl; rewrite app_nil_r; reflexivity.
    + intros H. injection H as <-.
      destruct (SectionType_eqb ty s) eqn:E.
      * apply SectionType_eqb_eq in E. subst. rewrite get_set_same. reflexivity.
      * apply SectionType_eqb_neq in E. rewrite get_set_other by exact E.
        simpl. rewrite app_nil_r. reflexivity.
  - intros H. injection H as <-.
    destruct (SectionType_eqb ty s); simpl; rewrite app_nil_r; reflexivity.
Qed.

Lemma band_tables_pages (page_num : nat) (ty : SectionType) (top bottom : Q)
    (ts : list Table) (o o' : Outputs) (s : SectionType) :
  for_each (band_table page_num ty top bottom) ts o = Ok o' ->
  page_numbers (get_section o' s)
  = page_numbers (get_section o s)
    ++ repeat page_num
         (if SectionType_eqb ty s then count_landing top bottom ts else 0).
Proof.
  revert o. induction ts as [|t ts IH]; intros o; simpl.
  - intros H. injection H as <-.
    destruct (SectionType_eqb ty s); simpl; rewrite app_nil_r; reflexivity.
  - destruct (band_table page_num ty top bottom o t) as [o1|e] eqn:E; simpl;
      [|discriminate].
    intros H. rewrite (IH _ H), (band_table_pages _ _ _ _ _ _ _ s E).
    rewrite <- app_assoc, <- repeat_app. f_equal. f_equal.
    unfold count_landing. simpl.
    destruct (SectionType_eqb ty s); [|reflexivity].
    destruct (lands_in_band top bottom t); reflexivity.
Qed.

Lemma band_headings_pages (page_num : nat) (hs : list Heading) (page_height : Q)
    (ts : list Table) (ihs : list (nat * Heading)) (st st' : State)
    (s : SectionType) :
  for_each (band_heading page_num hs page_height ts) ihs st = Ok st' ->
  page_numbers (get_section (fst st') s)
  = page_numbers (get_section (fst st) s)
    ++ repeat page_num
         (list_sum
            (map (fun ih : nat * Heading =>
                    if SectionType_eqb (h_type (snd ih)) s
                    then count_landing (h_bottom (snd ih))
                           (bottom_boundary_of hs page_height (fst ih)) ts
                    else 0)
               ihs)).
Proof.
  revert st. induction ihs as [|[i hd] ihs IH]; intros st; simpl.
  - intros H. injection H as <-. rewrite app_nil_r. reflexivity.
  - destruct (for_each _ ts (fst st)) as [o1|e] eqn:E; simpl; [|discriminate].
    intros H. rewrite (IH _ H). simpl fst.
    rewrite (band_tables_pages _ _ _ _ _ _ _ s E).
    rewrite <- app_assoc, <- repeat_app. reflexivity.
Qed.

Lemma continuation_tables_pages (page_num : nat) (last : SectionType) (hdr : Row)
    (ts : list Table) (o : Outputs) (st' : State) (s : SectionType) :
  continuation_tables page_num last hdr ts o = Ok st' ->
  page_numbers (get_section (fst st') s)
  = page_numbers (get_section o s)
    ++ repeat page_num
         (if SectionType_eqb last s
          then List.length (leading_matches hdr ts) else 0).
Proof.
  intros H. destruct (continuation_tables_spec _ _ _ _ _ _ H) as [H1 _].
  rewrite H1. destruct (SectionType_eqb last s) eqn:E.
  - apply SectionType_eqb_eq in E. subst s.
    rewrite (absorb_tables_last _ _ _ _ _ (leading_matches_Forall hdr ts)).
    reflexivity.
  - apply SectionType_eqb_neq in E.
    rewrite absorb_tables_other by congruence.
    simpl. rewrite app_nil_r. reflexivity.
Qed.

Lemma process_page_pages (st st' : State) (page_num : nat) (page : Page)
    (s : SectionType) :
  process_page st (page_num, page) = Ok st' ->
  page_numbers (get_section (fst st') s)
  = page_numbers (get_section (fst st) s) ++ repeat page_num (absorbed s st page).
Proof.
  destruct st as [o last]. unfold process_page, absorbed. simpl fst. simpl snd.
  destruct (find_tables page lines_snap4) as [ts|e]; simpl; [|discriminate].
  destruct (headers_of_page page) as [hs|e]; simpl; [|discriminate].
  destruct (truthy hs).
  - intros H. apply (band_headings_pages _ _ _ _ _ _ _ s) in H. exact H.
  - destruct last as [last|];
      [|intros H; injection H as <-; simpl; rewrite app_nil_r; reflexivity].
    destruct ts as [|t ts]; simpl truthy; cbv iota.
    + intros H. injection H as <-. simpl.
      destruct (SectionType_eqb last s);
        [destruct (header (get_section o last)) as [[|c hdr]|]|];
        simpl; rewrite app_nil_r; reflexivity.
    + destruct (header (get_section o last)) as [[|c hdr]|] eqn:Eh.
      * intros H. injection H as <-. simpl.
        destruct (SectionType_eqb last s); simpl; rewrite app_nil_r; reflexivity.
      * intros H. apply (continuation_tables_pages _ _ _ _ _ _ s) in H. exact H.
      * intros H. injection H as <-. simpl.
        destruct (SectionType_eqb last s); simpl; rewrite app_nil_r; reflexivity.
Qed.

(** ** Attribution to heading bands *)

Lemma lands_in_band_iff (top bottom : Q) (t : Table) :
  lands_in_band top bottom t = true
  <-> (top <= bbox_1 t)%Q /\ (bbox_3 t <= bottom)%Q
      /\ exists first more, extract t = Ok (first :: more).
Proof.
  unfold lands_in_band. rewrite !andb_true_iff, !Qle_bool_iff. split.
  - intros [[H1 H2] H3]. repeat split; try assumption.
    destruct (extract t) as [[|first more]|e]; try discriminate.
    exists first, more. reflexivity.
  - intros (H1 & H2 & first & more & H3). rewrite H3. auto.
Qed.

Lemma band_table_step (page_num : nat) (ty : SectionType) (top bottom : Q)
    (outputs : Outputs) (t : Table) (content : Grid) :
  extract t = Ok content ->
  let inside := (top <= bbox_1 t)%Q /\ (bbox_3 t <= bottom)%Q /\ content <> [] in
  exists outputs',
    band_table page_num ty top bottom outputs t = Ok outputs' /\
    (page_numbers (get_section outputs' ty)
     = page_numbers (get_section outputs ty) ++ [page_num] <-> inside) /\
    (inside ->
     outputs' = set_section outputs ty
                  (absorb_heading_table page_num content (get_section outputs ty))) /\
    (~ inside -> outputs' = outputs).
Proof.
  intros Hext inside. unfold band_table. rewrite Hext. cbn [bind].
  destruct (Qle_bool top (bbox_1 t)) eqn:E1;
    [destruct (Qle_bool (bbox_3 t) bottom) eqn:E2;
     [destruct content as [|first more] |] |]; simpl.
  - exists outputs. split; [reflexivity|]. split; [|split].
    + split; [intros H; exfalso; symmetry in H; apply (app_one_neq _ _ H)
             | intros (_ & _ & H); congruence].
    + intros (_ & _ & H); congruence.
    + reflexivity.
  - eexists. split; [reflexivity|]. split; [|split].
    + rewrite get_set_same. split; [|reflexivity].
      intros _. unfold inside. repeat split;
        try (apply Qle_bool_iff; assumption). discriminate.
    + reflexivity.
    + intros H. exfalso. apply H. unfold inside. repeat split;
        try (apply Qle_bool_iff; assumption). discriminate.
  - exists outputs. split; [reflexivity|]. split; [|split].
    + split; [intros H; exfalso; symmetry in H; apply (app_one_neq _ _ H)|].
      intros (_ & H & _). apply Qle_bool_iff in H. congruence.
    + intros (_ & H & _). apply Qle_bool_iff in H. congruence.
    + reflexivity.
  - exists outputs. split; [reflexivity|]. split; [|split].
    + split; [intros H; exfalso; symmetry in H; apply (app_one_neq _ _ H)|].
      intros (H & _ & _). apply Qle_bool_iff in H. congruence.
    + intros (H & _ & _). apply Qle_bool_iff in H. congruence.
    + reflexivity.
Qed.

(** C3 (as amended): on a page with retained headings [hs], the band of
    heading [i] is the closed interval from [hs[i].bottom] to
    [hs[i+1].top] (to the page height for the last heading), both ends
    included.  The table step for heading [i] attributes a table region
    (records the page number, appends its rows to the heading's section)
    exactly when the region's grid is non-empty and its bounding box lies
    in that band, and leaves every section as it is otherwise; over the
    page, a section's page list grows by one entry for each pair of a
    heading of its kind and a region landing in that heading's band. *)
Theorem band_attribution_closed_band
    (page_num : nat) (page : Page) (st st' : State)
    (hs : list Heading) (ts : list Table) :
  find_tables page lines_snap4 = Ok ts ->
  headers_of_page page = Ok hs ->
  hs <> [] ->
  process_page st (page_num, page) = Ok st' ->
  (forall s,
     page_numbers (get_section (fst st') s)
     = page_numbers (get_section (fst st) s)
       ++ repeat page_num (heading_count s hs (height page) ts)) /\
  (forall i hd t,
     nth_error hs i = Some hd ->
     let band_top := h_bottom hd in
     let band_bottom := bottom_boundary_of hs (height page) i in
     (forall next, nth_error hs (S i) = Some next -> band_bottom = h_top next) /\
     (List.length hs <= S i -> band_bottom = height page) /\
     (lands_in_band band_top band_bottom t = true
      <-> (band_top <= bbox_1 t)%Q /\ (bbox_3 t <= band_bottom)%Q
          /\ exists first more, extract t = Ok (first :: more)) /\
     (forall outputs content,
        extract t = Ok content ->
        let inside := (band_top <= bbox_1 t)%Q /\ (bbox_3 t <= band_bottom)%Q
                      /\ content <> [] in
        exists outputs',
          band_table page_num (h_type hd) band_top band_bottom outputs t
          = Ok outputs' /\
          (page_numbers (get_section outputs' (h_type hd))
           = page_numbers (get_section outputs (h_type hd)) ++ [page_num]
           <-> inside) /\
          (inside ->
           outputs' = set_section outputs (h_type hd)
                        (absorb_heading_table page_num content
                           (get_section outputs (h_type hd)))) /\
          (~ inside -> outputs' = outputs))).
Proof.
  intros Hts Hhs Hne Hrun. split.
  - intros s. rewrite (process_page_pages _ _ _ _ s Hrun).
    unfold absorbed. rewrite Hts, Hhs.
    replace (truthy hs) with true by (destruct hs; [congruence|reflexivity]).
    reflexivity.
  - intros i hd t Hnth band_top band_bottom.
    split; [|split; [|split]].
    + intros next Hn. unfold band_bottom, bottom_boundary_of.
      rewrite Nat.add_1_r, Hn. reflexivity.
    + intros Hlen. unfold band_bottom, bottom_boundary_of.
      rewrite Nat.add_1_r.
      destruct (nth_error hs (S i)) eqn:E; [|reflexivity].
      assert (S i < List.length hs) by (apply nth_error_Some; congruence). lia.
    + apply lands_in_band_iff.
    + intros outputs content Hext. apply band_table_step. exact Hext.
Qed.

Lemma band_attribution_closed_band_witness :
  exists st',
    process_page (initial_outputs, None) (1, page_touching) = Ok st' /\
    page_numbers (get_section (fst st') fauna) = [1] /\
    page_numbers (get_section (fst st') flora) = [].
Proof.
  destruct (process_page (initial_outputs, None) (1, page_touching))
    as [st'|e] eqn:Hrun; [|vm_compute in Hrun; discriminate].
  destruct (band_attribution_closed_band 1 page_touching (initial_outputs, None) st'
              [ {| h_type := fauna; h_bottom := 110; h_top := 100 |};
                {| h_type := flora; h_bottom := 310; h_top := 300 |} ]
              [table_touching]
              eq_refl ltac:(vm_compute; reflexivity) ltac:(discriminate) Hrun)
    as [Hpages _].
  exists st'. split; [reflexivity|]. split.
  - rewrite (Hpages fauna). reflexivity.
  - rewrite (Hpages flora). reflexivity.
Defined.

(** C3 (as stated) fails: a table whose bounding box ends exactly at the
    top of the next heading is attributed to the heading above it. *)
Lemma band_bottom_is_inclusive :
  headers_of_page page_touching
  = Ok [ {| h_type := fauna; h_bottom := 110; h_top := 100 |};
         {| h_type := flora; h_bottom := 310; h_top := 300 |} ]
  /\ bbox_3 table_touching = 300%Q
  /\ ~ (bbox_3 table_touching < 300)%Q
  /\ exists st',
       process_page (initial_outputs, None) (1, page_touching) = Ok st' /\
       page_numbers (get_section (fst st') fauna) = [1] /\
       rows (get_section (fst st') fauna)
       = [[Some "Wombat"; Some "v"; Some "15-Jan-2024"]] /\
       get_section (fst st') flora = empty_section.
Proof.
  split; [vm_compute; reflexivity|].
  split; [reflexivity|].
  split; [vm_compute; discriminate|].
  eexists. split; [vm_compute; reflexivity|].
  repeat split.
Qed.

Lemma combine_app_same_length {A B : Type} (l1 l1' : list A) (l2 l2' : list B) :
  List.length l1 = List.length l2 ->
  combine (l1 ++ l1') (l2 ++ l2') = combine l1 l2 ++ combine l1' l2'.
Proof.
  revert l2. induction l1 as [|a l1 IH]; intros [|b l2] H; simpl in *;
    try discriminate; [reflexivity|].
  rewrite IH by lia. reflexivity.
Qed.

Lemma enumerate1_snoc {A : Type} (l : list A) (a : A) :
  enumerate1 (l ++ [a]) = enumerate1 l ++ [(S (List.length l), a)].
Proof.
  unfold enumerate1. rewrite length_app. simpl List.length.
  rewrite seq_app. simpl seq.
  rewrite combine_app_same_length by (rewrite length_seq; reflexivity).
  reflexivity.
Qed.

Lemma scan_pages_snoc (pages : list Page) (p : Page) :
  scan_pages (pages ++ [p])
  = (st <- scan_pages pages ;; process_page st (S (List.length pages), p)).
Proof.
  unfold scan_pages. rewrite enumerate1_snoc, for_each_app.
  destruct (for_each process_page (enumerate1 pages) (initial_outputs, None))
    as [st|e]; cbn [bind for_each]; [|reflexivity].
  destruct (process_page st (S (List.length pages), p)); reflexivity.
Qed.

Lemma scan_pages_bound (pages : list Page) (st : State) (s : SectionType) :
  scan_pages pages = Ok st ->
  Forall (fun q => 1 <= q <= List.length pages) (page_numbers (get_section (fst st) s)).
Proof.
  unfold scan_pages.
  apply (for_each_invariant_in
           (fun x : State =>
              Forall (fun q => 1 <= q <= List.length pages)
                (page_numbers (get_section (fst x) s)))).
  - intros x [n p] x' Hin Hx Hrun.
    rewrite (process_page_pages _ _ _ _ s Hrun).
    apply Forall_app. split; [exact Hx|].
    apply Forall_forall. intros q Hq. apply repeat_spec in Hq. subst q.
    unfold enumerate1 in Hin. apply in_combine_l in Hin.
    apply in_seq in Hin. lia.
  - destruct s; constructor.
Qed.

Lemma NoDup_app_repeat (l : list nat) (n k : nat) :
  ~ In n l ->
  (NoDup (l ++ repeat n k) <-> NoDup l /\ k <= 1).
Proof.
  intros Hn. split.
  - intros H. split.
    + apply NoDup_app_remove_r in H. exact H.
    + apply NoDup_app_remove_l in H.
      destruct k as [|[|k]]; [lia | lia |].
      simpl in H. inversion H as [|? ? Hnot _]. exfalso. apply Hnot. left. reflexivity.
  - intros [Hl Hk]. destruct k as [|[|k]]; [| |lia].
    + simpl. rewrite app_nil_r. exact Hl.
    + simpl. apply NoDup_rev in Hl.
      rewrite <- (rev_involutive (l ++ [n])). apply NoDup_rev.
      rewrite rev_app_distr. simpl. constructor; [|exact Hl].
      rewrite <- in_rev. exact Hn.
Qed.

(** C8 (as amended): the page numbers of a section form a list to which a
    page appends its number once for every table region of the page that
    is attributed to the section.  Scanning one more page [p] after the
    pages [pages] extends the list by as many copies of the new page number
    as [p] has attributed regions; the earlier entries are numbers of
    earlier pages; so the list stays free of repetition exactly when it was
    so before and [p] attributes at most one region to the section. *)
Theorem page_number_recorded_once_per_table
    (pages : list Page) (p : Page) (st st' : State) (s : SectionType) :
  scan_pages pages = Ok st ->
  scan_pages (pages ++ [p]) = Ok st' ->
  let page_num := S (List.length pages) in
  page_numbers (get_section (fst st') s)
  = page_numbers (get_section (fst st) s) ++ repeat page_num (absorbed s st p) /\
  Forall (fun q => 1 <= q <= List.length pages)
    (page_numbers (get_section (fst st) s)) /\
  (NoDup (page_numbers (get_section (fst st') s))
   <-> NoDup (page_numbers (get_section (fst st) s)) /\ absorbed s st p <= 1).
Proof.
  intros Hst Hst' page_num.
  rewrite scan_pages_snoc, Hst in Hst'. simpl in Hst'.
  pose proof (process_page_pages _ _ _ _ s Hst') as Hpages.
  pose proof (scan_pages_bound _ _ s Hst) as Hbound.
  split; [exact Hpages|]. split; [exact Hbound|].
  rewrite Hpages. apply NoDup_app_repeat.
  intros Hin. rewrite Forall_forall in Hbound.
  apply Hbound in Hin. lia.
Qed.

Lemma page_number_recorded_once_per_table_witness :
  exists st st',
    scan_pages [page_fauna] = Ok st /\
    scan_pages ([page_fauna] ++ [page_cont_match]) = Ok st' /\
    absorbed fauna st page_cont_match = 1 /\
    page_numbers (get_section (fst st') fauna) = [1; 2] /\
    NoDup (page_numbers (get_section (fst st') fauna)).
Proof.
  assert (H1 : scan_pages [page_fauna] = Ok fauna_running)
    by (vm_compute; reflexivity).
  destruct (scan_pages ([page_fauna] ++ [page_cont_match])) as [st'|e] eqn:H2;
    [|vm_compute in H2; discriminate].
  destruct (page_number_recorded_once_per_table
              [page_fauna] page_cont_match fauna_running st' fauna H1 H2)
    as (Hp & _ & Hnd).
  exists fauna_running, st'.
  split; [exact H1|]. split; [reflexivity|]. split; [reflexivity|].
  split; [rewrite Hp; reflexivity|].
  apply Hnd. split; [repeat constructor; simpl; tauto | vm_compute; lia].
Defined.

(** C8 (as stated) fails: two tables in the band of one heading record
    the page number twice. *)
Lemma page_number_repeated_for_two_tables :
  exists st,
    scan_pages [page_two_tables] = Ok st /\
    page_numbers (get_section (fst st) fauna) = [1; 1] /\
    ~ NoDup (page_numbers (get_section (fst st) fauna)).
Proof.
  eexists. split; [vm_compute; reflexivity|].
  split; [reflexivity|].
  intros H. inversion H as [|? ? Hnot _]. apply Hnot. left. reflexivity.
Qed.

(** ** Exceptions raised while a page is processed *)

Lemma enumerate1_split {A : Type} (pre post : list A) (a : A) :
  enumerate1 (pre ++ a :: post)
  = enumerate1 pre
    ++ (S (List.length pre), a)
       :: combine (seq (S (S (List.length pre))) (List.length post)) post.
Proof.
  unfold enumerate1. rewrite length_app. simpl List.length.
  rewrite seq_app. simpl seq.
  rewrite combine_app_same_length by (rewrite length_seq; reflexivity).
  reflexivity.
Qed.

Lemma scan_pages_raise (pre post : list Page) (p : Page) (st : State) (e : exn) :
  scan_pages pre = Ok st ->
  process_page st (S (List.length pre), p) = Raise e ->
  scan_pages (pre ++ p :: post) = Raise e.
Proof.
  unfold scan_pages. intros Hpre Hp.
  rewrite enumerate1_split, for_each_app, Hpre.
  cbn [bind for_each]. rewrite Hp. reflexivity.
Qed.

(** C2 (as amended): an exception raised while a page is processed ends
    the page loop and leaves [extract_nvr_tables] as the very exception
    that was raised, with nothing added to it (no page number); no table
    is returned; the command-line driver writes the error result with
    [str(e)] and exits with status 1, the HTTP driver answers 500 with
    status "failed". *)
Theorem page_exception_propagates_unchanged
    (datelib : DateLib) (pre post : list Page) (p : Page) (st : State) (e : exn) :
  scan_pages pre = Ok st ->
  process_page st (S (List.length pre), p) = Raise e ->
  extract_nvr_tables (pre ++ p :: post) = Raise e /\
  (forall open_pdf version format_exc argv,
     List.length argv = 3 \/ List.length argv = 4 ->
     open_pdf (nth 1 argv "") = Ok (pre ++ p :: post) ->
     main open_pdf version format_exc argv
     = {| output_file :=
            Some (ErrorFile {| er_success := false;
                               er_error := exn_str e;
                               er_traceback := format_exc e;
                               er_tables := [] |});
          exit_code := 1;
          result_in_memory := None |}) /\
  (forall open_pdf temp_path extraction_id,
     open_pdf temp_path = Ok (pre ++ p :: post) ->
     extractPdfTables_run open_pdf temp_path extraction_id
     = ({| extractionId := extraction_id;
           status := "failed";
           r_tables := [];
           r_table_count := None;
           r_message := None;
           r_error := Some (exn_str e) |}, 500)).
Proof.
  intros Hpre Hp.
  assert (Hx : extract_nvr_tables (pre ++ p :: post) = Raise e).
  { unfold extract_nvr_tables.
    rewrite (scan_pages_raise pre post p st e Hpre Hp). reflexivity. }
  split; [exact Hx|]. split.
  - intros open_pdf version format_exc argv Hargv Hopen. unfold main.
    replace ((List.length argv =? 3) || (List.length argv =? 4)) with true
      by (destruct Hargv as [-> | ->]; reflexivity).
    cbn [negb]. rewrite Hopen. cbn [bind]. rewrite Hx. reflexivity.
  - intros open_pdf temp_path extraction_id Hopen.
    unfold extractPdfTables_run. rewrite Hopen. cbn [bind]. rewrite Hx.
    reflexivity.
Qed.

Lemma page_exception_propagates_unchanged_witness :
  extract_nvr_tables (datelib := pandas_strict) ([page_fauna] ++ page_faulty :: [page_blank])
  = Raise plumber_error.
Proof.
  refine (proj1 (page_exception_propagates_unchanged pandas_strict
                   [page_fauna] [page_blank] page_faulty fauna_running
                   plumber_error _ _)).
  - vm_compute. reflexivity.
  - reflexivity.
Defined.

(** C2 (as stated) fails: a failure on page 1 of one document and a
    failure on page 2 of another reach the caller as the same exception,
    the one the PDF primitive raised; nothing in it tells the page. *)
Lemma propagated_exception_has_no_page_context :
  process_page (initial_outputs, None) (1, page_faulty) = Raise plumber_error
  /\ scan_pages [page_blank] = Ok (initial_outputs, None)
  /\ process_page (initial_outputs, None) (2, page_faulty) = Raise plumber_error
  /\ extract_nvr_tables (datelib := pandas_strict) [page_faulty]
     = Raise plumber_error
  /\ extract_nvr_tables (datelib := pandas_strict) [page_blank; page_faulty]
     = Raise plumber_error
  /\ exn_str plumber_error = "No /Root object!".
Proof. repeat split. Qed.

(** ** The run that finds no table *)

(** When no section holds a row, no table is assembled. *)
Lemma no_rows_no_tables (datelib : DateLib) (pages : list Page) (st : State) :
  scan_pages pages = Ok st ->
  (forall s, rows (get_section (fst st) s) = []) ->
  extract_nvr_tables pages = Ok [].
Proof.
  intros Hscan Hrows. unfold extract_nvr_tables. rewrite Hscan. cbn [bind].
  unfold section_order. cbn [for_each bind]. unfold finalize_section.
  rewrite !Hrows. reflexivity.
Qed.

(** What [main] does when the extraction returns no table and the
    diagnostic pass returns: the file holds the result as it was before
    the diagnostics, the amended result exists in memory only. *)
Lemma main_no_tables (datelib : DateLib) (open_pdf : string -> result (list Page))
    (version : string) (format_exc : exn -> string) (argv : list string)
    (pages : list Page) (dbg : DebugInfo) :
  List.length argv = 3 \/ List.length argv = 4 ->
  open_pdf (nth 1 argv "") = Ok pages ->
  extract_nvr_tables pages = Ok [] ->
  collect_debug_info pages = Ok dbg ->
  let outcome := main open_pdf version format_exc argv in
  exit_code outcome = 0 /\
  (exists r, output_file outcome = Some (RunFile r) /\
             success r = true /\ table_count r = 0 /\
             debug_info r = None /\ error r = None) /\
  (exists r, result_in_memory outcome = Some r /\
             success r = false /\ table_count r = 0 /\
             debug_info r = Some dbg /\ error r = Some (no_tables_error dbg)).
Proof.
  intros Hargv Hopen Hx Hdbg. unfold main.
  replace ((List.length argv =? 3) || (List.length argv =? 4)) with true
    by (destruct Hargv as [-> | ->]; reflexivity).
  cbn [negb]. rewrite Hopen. cbn [bind]. rewrite Hx. cbn [bind ret].
  cbn [List.length Nat.eqb]. rewrite Hdbg. cbn.
  split; [reflexivity|]. split; eexists; repeat split.
Qed.

(** C1, the code at a document of one blank page: the extraction returns
    no table and the diagnostic pass returns; [main] exits with status 0;
    the file it wrote carries [success = true], [table_count = 0] and no
    diagnostic payload; the result with [success = false] and the per-page
    diagnostics is built afterwards and stays in memory.  The HTTP driver
    answers "completed_no_tables" with a table count of 0 and a message,
    without success flag or diagnostics. *)
Theorem main_writes_result_before_diagnostics :
  let open_pdf := fun _ : string => Ok [page_blank] in
  let outcome :=
    main (datelib := pandas_strict) open_pdf "0.11.0" (fun _ => "")
      ["extract_pdf_tables.py"; "report.pdf"; "out.json"] in
  scan_pages [page_blank] = Ok (initial_outputs, None) /\
  extract_nvr_tables (datelib := pandas_strict) [page_blank] = Ok [] /\
  exit_code outcome = 0 /\
  (exists r, output_file outcome = Some (RunFile r) /\
             success r = true /\ table_count r = 0 /\
             debug_info r = None /\ error r = None) /\
  (exists r dbg, result_in_memory outcome = Some r /\
             success r = false /\ table_count r = 0 /\
             debug_info r = Some dbg /\
             total_pages dbg = 1 /\
             tables_found_per_page dbg = [(1, 0)] /\
             text_search_results dbg
             = [("page_1", map (fun phrase => (phrase, 0)) search_phrases)]) /\
  extractPdfTables_run (datelib := pandas_strict) open_pdf "tmp.pdf" "id-1"
  = ({| extractionId := "id-1";
        status := "completed_no_tables";
        r_tables := [];
        r_table_count := Some 0;
        r_message := Some "No NVR species tables found in document";
        r_error := None |}, 200).
Proof.
  cbv zeta. split; [reflexivity|]. split; [reflexivity|].
  split; [reflexivity|]. split; [|split].
  - eexists. split; [vm_compute; reflexivity|]. repeat split.
  - eexists. eexists. split; [vm_compute; reflexivity|]. repeat split.
  - vm_compute. reflexivity.
Qed.

(** ** Date columns *)

Section DateColumns.
Context {datelib : DateLib}.





End DateColumns.

(** The model's [strftime] writes ten characters: [dd-mm-yyyy]. *)








(** ** Column reconciliation *)

Section Columns.
Context {datelib : DateLib}.

Lemma clean_value_named (name : string) (v : Cell) :
  clean_value (Some name) v = Ok (value_of (clean_value (Some name) v)).
Proof.
  unfold clean_value. destruct v as [v|]; [|reflexivity].
  destruct (String.eqb v ""); [reflexivity|].
  destruct (existsb _ date_words); reflexivity.
Qed.

Lemma dict_set_fresh (d : Dict) (k v : Cell) :
  ~ In k (dict_keys d) -> dict_set d k v = d ++ [(k, v)].
Proof.
  induction d as [|[k' v'] d IH]; simpl; intros H; [reflexivity|].
  destruct (cell_eqb k' k) eqn:E.
  - apply cell_eqb_eq in E. exfalso. apply H. left. exact E.
  - rewrite IH; [reflexivity|]. intros Hin. apply H. right. exact Hin.
Qed.

Lemma nth_guarded (row : Row) (j : nat) :
  (if j <? List.length row then nth j row None else None) = nth j row None.
Proof.
  destruct (j <? List.length row) eqn:E; [reflexivity|].
  apply Nat.ltb_ge in E. symmetry. apply nth_overflow. exact E.
Qed.

Lemma process_columns_named (row : Row) (names : list string) (k : nat) (acc : Dict) :
  NoDup names ->
  (forall name, In name names -> ~ In (Some name) (dict_keys acc)) ->
  for_each (process_column row)
    (combine (seq k (List.length names)) (map Some names)) acc
  = Ok (acc ++ record_from k names row).
Proof.
  revert k acc. induction names as [|name names IH]; intros k acc Hnd Hfresh.
  - simpl. rewrite app_nil_r. reflexivity.
  - cbn [List.length seq map combine for_each].
    unfold process_column at 1. rewrite nth_guarded, clean_value_named.
    cbn [bind ret].
    rewrite dict_set_fresh by (apply Hfresh; left; reflexivity).
    inversion Hnd as [|? ? Hnotin Hnd']. subst.
    rewrite IH.
    + unfold record_from. cbn [List.length seq combine map fst snd].
      rewrite <- app_assoc. reflexivity.
    + exact Hnd'.
    + intros n Hn Hin. unfold dict_keys in Hin. rewrite map_app in Hin.
      apply in_app_or in Hin. destruct Hin as [Hin|Hin].
      * apply (Hfresh n (or_intror Hn) Hin).
      * simpl in Hin. destruct Hin as [Hin|[]].
        injection Hin as ->. exact (Hnotin Hn).
Qed.

Lemma process_row_named (names : list string) (row : Row) :
  NoDup names ->
  process_row (map Some names) row = Ok (record_from 0 names row).
Proof.
  intros Hnd. unfold process_row, enumerate. rewrite length_map.
  apply (process_columns_named row names 0 [] Hnd).
  intros name _ [].
Qed.

Lemma process_rows_named (names : list string) (cleaned : list Row) (acc : list Dict) :
  NoDup names ->
  for_each (fun acc row => d <- process_row (map Some names) row ;; ret (acc ++ [d]))
    cleaned acc
  = Ok (acc ++ map (record_from 0 names) cleaned).
Proof.
  intros Hnd. revert acc. induction cleaned as [|row cleaned IH]; intros acc.
  - simpl. rewrite app_nil_r. reflexivity.
  - cbn [for_each map]. rewrite (process_row_named names row Hnd).
    cbn [bind ret]. rewrite IH, <- app_assoc. reflexivity.
Qed.

Lemma clean_row_length (n : nat) (row : Row) : List.length (clean_row n row) = n.
Proof.
  unfold clean_row. destruct (List.length row =? n) eqn:E; simpl.
  - apply Nat.eqb_eq. exact E.
  - rewrite length_firstn, length_app, repeat_length. lia.
Qed.

Lemma clean_row_short (n : nat) (row : Row) :
  List.length row <= n ->
  clean_row n row = row ++ repeat None (n - List.length row).
Proof.
  intros H. unfold clean_row. destruct (List.length row =? n) eqn:E; simpl.
  - apply Nat.eqb_eq in E. rewrite E, Nat.sub_diag. simpl.
    rewrite app_nil_r. reflexivity.
  - apply firstn_all2. rewrite length_app, repeat_length. lia.
Qed.

Lemma clean_row_long (n : nat) (row : Row) :
  n <= List.length row -> clean_row n row = firstn n row.
Proof.
  intros H. unfold clean_row. destruct (List.length row =? n) eqn:E; simpl.
  - apply Nat.eqb_eq in E. rewrite <- E. symmetry. apply firstn_all.
  - replace (n - List.length row) with 0 by lia. simpl.
    rewrite app_nil_r. reflexivity.
Qed.

Lemma clean_row_nth (n : nat) (row : Row) (j : nat) :
  j < n -> nth j (clean_row n row) None = nth j row None.
Proof.
  intros Hj. destruct (Nat.le_ge_cases (List.length row) n) as [H|H].
  - rewrite (clean_row_short n row H).
    destruct (Nat.lt_ge_cases j (List.length row)) as [Hlt|Hge].
    + apply app_nth1. exact Hlt.
    + rewrite app_nth2 by exact Hge. rewrite nth_repeat.
      symmetry. apply nth_overflow. exact Hge.
  - rewrite (clean_row_long n row H).
    rewrite <- (firstn_skipn n row) at 2.
    symmetry. apply app_nth1. rewrite length_firstn. lia.
Qed.

Lemma record_from_keys (names : list string) (row : Row) (k : nat) :
  dict_keys (record_from k names row) = map Some names.
Proof.
  unfold dict_keys, record_from. rewrite map_map. cbn [fst].
  revert k. induction names as [|name names IH]; intros k; simpl; [reflexivity|].
  rewrite IH. reflexivity.
Qed.

Lemma record_from_nth (names : list string) (row : Row) (k j : nat) (name : string) :
  nth_error names j = Some name ->
  nth_error (record_from k names row) j
  = Some (Some name, value_of (clean_value (Some name) (nth (k + j) row None))).
Proof.
  unfold record_from. revert k j.
  induction names as [|n names IH]; intros k [|j] H; simpl in *; try discriminate.
  - injection H as ->. rewrite Nat.add_0_r. reflexivity.
  - rewrite (IH (S k) j H). rewrite Nat.add_succ_r. reflexivity.
Qed.

End Columns.

Lemma skipn_last_two {A : Type} (l : list A) (k : nat) (a b : A) :
  List.length l = k + 2 ->
  nth_error l k = Some a -> nth_error l (S k) = Some b ->
  skipn k l = [a; b].
Proof.
  revert l. induction k as [|k IH]; intros l Hlen Ha Hb.
  - destruct l as [|x [|y [|z l]]]; simpl in *; try discriminate.
    injection Ha as ->. injection Hb as ->. reflexivity.
  - destruct l as [|x l]; simpl in *; [discriminate|].
    apply IH; [lia | exact Ha | exact Hb].
Qed.

(** C7: for a non-empty header of pairwise distinct column names and any
    raw row, the normalizer pads the row on the right with null up to the
    header length, or cuts it on the right down to it; the record of the
    row has exactly the header's names as keys, in header order, the value
    under the [j]-th name being the cleaned [j]-th cell, null where the row
    has no such cell.  A row two cells short gives a record whose last two
    values are null; a row three cells too long keeps its first
    header-length cells. *)
Theorem normalizer_reconciles_columns
    (datelib : DateLib) (names : list string) (rws : list Row) (i : nat) (row : Row) :
  names <> [] ->
  NoDup names ->
  nth_error rws i = Some row ->
  let hdr : Row := map Some names in
  let n := List.length names in
  exists p cleaned d,
    clean_and_process_table_data rws hdr = Ok p /\
    p_headers p = hdr /\
    List.length (p_processed_data p) = List.length rws /\
    nth_error (p_rows p) i = Some cleaned /\
    nth_error (p_processed_data p) i = Some d /\
    List.length cleaned = n /\
    (List.length row <= n -> cleaned = row ++ repeat None (n - List.length row)) /\
    (n <= List.length row -> cleaned = firstn n row) /\
    dict_keys d = hdr /\
    List.length d = n /\
    (forall j name, nth_error names j = Some name ->
       exists c, clean_value (Some name) (nth j row None) = Ok c /\
                 nth_error d j = Some (Some name, c)) /\
    (forall j name, nth_error names j = Some name -> List.length row <= j ->
       nth_error d j = Some (Some name, None)) /\
    (List.length row + 2 = n ->
       map snd (skipn (List.length row) d) = [None; None]) /\
    (List.length row = n + 3 -> cleaned = firstn n row /\ List.length d = n).
Proof.
  intros Hne Hnd Hrow hdr n.
  set (cleaned := clean_row n row).
  set (d := record_from 0 names cleaned).
  assert (Hrun : clean_and_process_table_data rws hdr
                 = Ok {| p_headers := hdr;
                         p_rows := map (clean_row n) rws;
                         p_processed_data :=
                           map (record_from 0 names) (map (clean_row n) rws) |}).
  { unfold clean_and_process_table_data.
    replace (truthy hdr) with true by (unfold hdr; destruct names; [congruence|reflexivity]).
    replace (truthy rws) with true by (destruct rws; [destruct i; discriminate|reflexivity]).
    cbn [negb orb].
    replace (List.length hdr) with n by (unfold hdr; rewrite length_map; reflexivity).
    pose proof (process_rows_named names (map (clean_row n) rws) [] Hnd) as H.
    cbn [app] in H. unfold hdr.
    change (for_each
              (fun acc row0 => d0 <- process_row (map Some names) row0 ;; ret (acc ++ [d0]))
              (map (clean_row n) rws) []
            = Ok (map (record_from 0 names) (map (clean_row n) rws))) in H.
    rewrite H. reflexivity. }
  assert (Hkeys : dict_keys d = hdr) by apply record_from_keys.
  assert (Hlen : List.length d = n).
  { apply (f_equal (@List.length Cell)) in Hkeys.
    unfold dict_keys, hdr in Hkeys. rewrite !length_map in Hkeys. exact Hkeys. }
  assert (Hval : forall j name, nth_error names j = Some name ->
            nth_error d j
            = Some (Some name, value_of (clean_value (Some name) (nth j row None)))).
  { intros j name Hj. unfold d.
    rewrite (record_from_nth names cleaned 0 j name Hj). simpl Nat.add.
    unfold cleaned. rewrite clean_row_nth; [reflexivity|].
    apply nth_error_Some. congruence. }
  assert (Hnull : forall j name, nth_error names j = Some name ->
            List.length row <= j -> nth_error d j = Some (Some name, None)).
  { intros j name Hj Hge. rewrite (Hval j name Hj).
    rewrite (nth_overflow row None Hge). reflexivity. }
  exists {| p_headers := hdr;
            p_rows := map (clean_row n) rws;
            p_processed_data := map (record_from 0 names) (map (clean_row n) rws) |},
         cleaned, d.
  split; [exact Hrun|]. cbn [p_headers p_rows p_processed_data].
  split; [reflexivity|].
  split; [rewrite !length_map; reflexivity|].
  split; [apply map_nth_error; exact Hrow|].
  split; [apply map_nth_error, map_nth_error; exact Hrow|].
  split; [apply clean_row_length|].
  split; [apply clean_row_short|].
  split; [apply clean_row_long|].
  split; [exact Hkeys|].
  split; [exact Hlen|].
  split.
  { intros j name Hj. eexists. split; [apply clean_value_named | apply (Hval j name Hj)]. }
  split; [exact Hnull|].
  split.
  - intros Hshort.
    destruct (nth_error names (List.length row)) as [a|] eqn:Ea;
      [|apply nth_error_None in Ea; lia].
    destruct (nth_error names (S (List.length row))) as [b|] eqn:Eb;
      [|apply nth_error_None in Eb; lia].
    rewrite (skipn_last_two d (List.length row) (Some a, None) (Some b, None)).
    + reflexivity.
    + rewrite Hlen. lia.
    + apply (Hnull _ a Ea). lia.
    + apply (Hnull _ b Eb). lia.
  - intros Hlong. split; [|exact Hlen].
    apply clean_row_long. lia.
Qed.

Lemma normalizer_reconciles_columns_witness :
  exists p cleaned d,
    clean_and_process_table_data (datelib := pandas_strict)
      [ [Some " Wombat "];
        [Some "Quoll"; Some "e"; Some "2024-01-15"; Some "x"; Some "y"; Some "z"] ]
      fauna_header = Ok p /\
    nth_error (p_rows p) 0 = Some cleaned /\
    cleaned = [Some " Wombat "; None; None] /\
    nth_error (p_processed_data p) 0 = Some d /\
    dict_keys d = fauna_header /\
    map snd (skipn 1 d) = [None; None].
Proof.
  destruct (normalizer_reconciles_columns pandas_strict
              ["Species"; "Status"; "Last Recorded"]
              [ [Some " Wombat "];
                [Some "Quoll"; Some "e"; Some "2024-01-15"; Some "x"; Some "y"; Some "z"] ]
              0 [Some " Wombat "]
              ltac:(discriminate)
              ltac:(repeat constructor; simpl; intuition discriminate)
              eq_refl)
    as (p & cleaned & d & Hrun & _ & _ & Hrow & Hrec & _ & Hshort & _ & Hkeys & _
        & _ & _ & Htwo & _).
  exists p, cleaned, d.
  split; [exact Hrun|]. split; [exact Hrow|].
  split; [apply Hshort; simpl; lia|].
  split; [exact Hrec|]. split; [exact Hkeys|].
  apply Htwo. reflexivity.
Defined.

Example normalizer_run :
  clean_and_process_table_data (datelib := pandas_strict)
    [ [Some " Wombat "];
      [Some "Quoll"; Some "e"; Some "2024-01-15"; Some "x"; Some "y"; Some "z"] ]
    fauna_header
  = Ok {| p_headers := fauna_header;
          p_rows := [ [Some " Wombat "; None; None];
                      [Some "Quoll"; Some "e"; Some "2024-01-15"] ];
          p_processed_data :=
            [ [ (Some "Species", Some "Wombat"); (Some "Status", None);
                (Some "Last Recorded", None) ];
              [ (Some "Species", Some "Quoll"); (Some "Status", Some "e");
                (Some "Last Recorded", Some "15-01-2024") ] ] |}.
Proof. vm_compute. reflexivity. Qed.

(** ** Further concrete runs *)

Example strptime_abbrev :
  PandasModel.strptime "15-Jan-2024" "%d-%b-%Y"
  = Some (PandasModel.mk_date 2024 1 15).
Proof. vm_compute. reflexivity. Qed.

Example strptime_iso_rejected_by_first :
  PandasModel.strptime "2024-01-15" "%d-%b-%Y" = None.
Proof. vm_compute. reflexivity. Qed.

Example strptime_no_such_day :
  PandasModel.strptime "31/02/2024" "%d/%m/%Y" = None.
Proof. vm_compute. reflexivity. Qed.

Example description_flora_range :
  title (replace_underscore (section_name flora_range)) = "Flora Range".
Proof. vm_compute. reflexivity. Qed.

(** The two-page scenario: a fauna heading with a three-column table, then
    a headerless page with a three-column table. *)
Example two_pages_merge :
  exists t,
    extract_nvr_tables (datelib := pandas_strict) [page_fauna; page_cont_match]
    = Ok [t] /\
    tableName t = "fauna" /\ pageNumber t = [1; 2] /\ record_count t = 2 /\
    description t = "NVR Fauna Data".
Proof. eexists. split; [vm_compute; reflexivity|]. repeat split. Qed.

(** A header cell that is null with a value under it: the normalizer
    raises, and so does the run. *)
Example null_header_name_raises :
  clean_and_process_table_data (datelib := pandas_strict)
    [[Some "a"; Some "b"]] [Some "Species"; None]
  = Raise attribute_error_lower.
Proof. vm_compute. reflexivity. Qed.

(** * Further properties of the stitcher *)

(** X1: a document none of whose pages has a retained heading gives no
    table, whatever tables its pages hold. *)
Theorem headerless_document_has_no_tables
    (datelib : DateLib) (pages : list Page) :
  Forall headerless pages ->
  scan_pages pages = Ok (initial_outputs, None) /\
  extract_nvr_tables pages = Ok [].
Proof.
  intros Hall.
  assert (Hscan : scan_pages pages = Ok (initial_outputs, None)).
  { unfold scan_pages. apply idle_pages_absorb_nothing.
    apply Forall_forall. intros [n p] Hin.
    unfold enumerate1 in Hin. apply in_combine_r in Hin.
    rewrite Forall_forall in Hall. apply Hall. exact Hin. }
  split; [exact Hscan|].
  apply (no_rows_no_tables datelib pages _ Hscan).
  intros s. destruct s; reflexivity.
Qed.

Lemma headerless_document_has_no_tables_witness :
  extract_nvr_tables (datelib := pandas_strict) [page_cont_match; page_blank] = Ok [].
Proof.
  refine (proj2 (headerless_document_has_no_tables pandas_strict
                   [page_cont_match; page_blank] _)).
  repeat constructor; try reflexivity.
  - exists [table_cont3]. reflexivity.
  - exists []. reflexivity.
Defined.

Lemma last_cons_default {A : Type} (l : list A) (a d : A) :
  last (a :: l) d = last l a.
Proof.
  revert a d. induction l as [|x l IH]; intros a d; [reflexivity|].
  change (last (a :: x :: l) d) with (last (x :: l) d).
  rewrite (IH x d), (IH x a). reflexivity.
Qed.

Lemma band_headings_running (page_num : nat) (hs : list Heading) (page_height : Q)
    (ts : list Table) (ihs : list (nat * Heading)) (st st' : State) :
  for_each (band_heading page_num hs page_height ts) ihs st = Ok st' ->
  snd st' = match ihs with
            | [] => snd st
            | ih :: rest => Some (h_type (snd (last rest ih)))
            end.
Proof.
  revert st. induction ihs as [|[i hd] ihs IH]; intros st.
  - simpl. intros H. injection H as <-. reflexivity.
  - cbn [for_each]. unfold band_heading at 1.
    destruct (for_each _ ts (fst st)) as [o|e]; cbn [bind ret]; [|discriminate].
    intros H. rewrite (IH _ H). destruct ihs as [|ih2 rest]; [reflexivity|].
    rewrite last_cons_default. reflexivity.
Qed.

Lemma last_enumerate_snd {A : Type} (l : list A) (k n : nat) (a : A) :
  snd (last (combine (seq k (List.length l)) l) (n, a)) = last l a.
Proof.
  revert k n a. induction l as [|x l IH]; intros k n a; [reflexivity|].
  cbn [List.length seq combine]. rewrite !last_cons_default. apply IH.
Qed.

(** X2: after a page with retained headings, the running section is the
    kind of the last heading in reading order, and the outcome of the page
    does not depend on the section that was running before it. *)
Theorem heading_page_sets_running_section
    (page_num : nat) (page : Page) (o : Outputs) (before : option SectionType)
    (st' : State) (hd : Heading) (hs : list Heading) :
  headers_of_page page = Ok (hd :: hs) ->
  process_page (o, before) (page_num, page) = Ok st' ->
  snd st' = Some (h_type (last hs hd)) /\
  forall other, process_page (o, other) (page_num, page) = Ok st'.
Proof.
  intros Hhs Hrun. unfold process_page in *.
  destruct (find_tables page lines_snap4) as [ts|e]; cbn [bind] in *; [|discriminate].
  rewrite Hhs in *. cbn [bind truthy] in *.
  split.
  - rewrite (band_headings_running _ _ _ _ _ _ _ Hrun).
    unfold enumerate. cbn [List.length seq combine]. f_equal. f_equal.
    apply (last_enumerate_snd hs 1 0 hd).
  - intros other. exact Hrun.
Qed.

Lemma heading_page_sets_running_section_witness :
  exists st',
    process_page fauna_running (2, page_touching) = Ok st' /\
    snd st' = Some flora.
Proof.
  destruct (process_page fauna_running (2, page_touching)) as [st'|e] eqn:Hrun;
    [|vm_compute in Hrun; discriminate].
  exists st'. split; [reflexivity|].
  exact (proj1 (heading_page_sets_running_section 2 page_touching
                  (fst fauna_running) (Some fauna) st'
                  {| h_type := fauna; h_bottom := 110; h_top := 100 |}
                  [ {| h_type := flora; h_bottom := 310; h_top := 300 |} ]
                  ltac:(vm_compute; reflexivity) Hrun)).
Defined.

Lemma headers_of_page_sorted (page : Page) (hs : list Heading) :
  headers_of_page page = Ok hs -> Sorted top_le hs.
Proof.
  unfold headers_of_page, find_headers.
  destruct (search page pat_verified_records) as [vr|e]; cbn [bind]; [|discriminate].
  destruct (truthy vr).
  - destruct (search page pat_fauna_range); cbn [bind]; [|discriminate].
    destruct (search page pat_flora_range); cbn [bind]; [|discriminate].
    destruct (search page pat_fauna); cbn [bind]; [|discriminate].
    destruct (search page pat_flora); cbn [bind]; [|discriminate].
    intros H. injection H as <-. apply sort_by_top_sorted.
  - intros H. injection H as <-. constructor.
Qed.

Lemma top_le_trans : Relations_1.Transitive top_le.
Proof. intros a b c Hab Hbc. unfold top_le in *. eapply Qle_trans; eassumption. Qed.

Lemma strongly_sorted_nth {A : Type} (R : A -> A -> Prop) (l : list A) :
  StronglySorted R l ->
  forall i j a b, i < j -> nth_error l i = Some a -> nth_error l j = Some b -> R a b.
Proof.
  induction 1 as [|x l Hs IH Hall]; intros i j a b Hij Ha Hb.
  - destruct i; discriminate.
  - destruct j as [|j]; [lia|]. simpl in Hb.
    destruct i as [|i]; simpl in Ha.
    + injection Ha as <-. rewrite Forall_forall in Hall. apply Hall.
      eapply nth_error_In. exact Hb.
    + apply (IH i j a b); [lia | exact Ha | exact Hb].
Qed.

Lemma bands_do_not_share (hs : list Heading) (page_height : Q) (t : Table)
    (i j : nat) (hi hj : Heading) :
  StronglySorted top_le hs ->
  upright hj ->
  (bbox_1 t < bbox_3 t)%Q ->
  i < j ->
  nth_error hs i = Some hi -> nth_error hs j = Some hj ->
  lands_in_band (h_bottom hi) (bottom_boundary_of hs page_height i) t = true ->
  lands_in_band (h_bottom hj) (bottom_boundary_of hs page_height j) t = true ->
  False.
Proof.
  intros Hs Hup Hpos Hij Hi Hj Li Lj.
  apply lands_in_band_iff in Li. destruct Li as (_ & Hi3 & _).
  apply lands_in_band_iff in Lj. destruct Lj as (Hj1 & _ & _).
  unfold bottom_boundary_of in Hi3. rewrite Nat.add_1_r in Hi3.
  destruct (nth_error hs (S i)) as [next|] eqn:En.
  - assert (Hnj : (h_top next <= h_top hj)%Q).
    { destruct (Nat.eq_dec (S i) j) as [<-|Hne].
      - rewrite En in Hj. injection Hj as <-. apply Qle_refl.
      - apply (strongly_sorted_nth top_le hs Hs (S i) j next hj); [lia | exact En | exact Hj]. }
    unfold upright in Hup. lra.
  - apply nth_error_None in En.
    assert (j < List.length hs) by (apply nth_error_Some; congruence). lia.
Qed.

(** X3: on a page whose heading hits are upright (top not below bottom), a
    table region of positive height that lands in the band of one heading
    lands in the band of no other heading of the page: no region is
    attributed to two headings. *)
Theorem region_lands_in_one_band_only
    (page : Page) (hs : list Heading) (t : Table) (i : nat) (hi : Heading) :
  headers_of_page page = Ok hs ->
  Forall upright hs ->
  (bbox_1 t < bbox_3 t)%Q ->
  nth_error hs i = Some hi ->
  lands_in_band (h_bottom hi) (bottom_boundary_of hs (height page) i) t = true ->
  forall j hj,
    nth_error hs j = Some hj -> j <> i ->
    lands_in_band (h_bottom hj) (bottom_boundary_of hs (height page) j) t = false.
Proof.
  intros Hhs Hup Hpos Hi Li j hj Hj Hne.
  assert (Hs : StronglySorted top_le hs).
  { apply Sorted_StronglySorted; [exact top_le_trans|].
    apply (headers_of_page_sorted page hs Hhs). }
  rewrite Forall_forall in Hup.
  destruct (lands_in_band (h_bottom hj) (bottom_boundary_of hs (height page) j) t)
    eqn:Lj; [|reflexivity].
  exfalso. destruct (Nat.lt_trichotomy i j) as [Hlt|[Heq|Hgt]]; [|congruence|].
  - apply (bands_do_not_share hs (height page) t i j hi hj); auto.
    apply Hup. eapply nth_error_In. exact Hj.
  - apply (bands_do_not_share hs (height page) t j i hj hi); auto.
    apply Hup. eapply nth_error_In. exact Hi.
Qed.

Lemma region_lands_in_one_band_only_witness :
  lands_in_band 310 (bottom_boundary_of
                       [ {| h_type := fauna; h_bottom := 110; h_top := 100 |};
                         {| h_type := flora; h_bottom := 310; h_top := 300 |} ]
                       (height page_touching) 1) table_touching = false.
Proof.
  refine (region_lands_in_one_band_only page_touching
            [ {| h_type := fauna; h_bottom := 110; h_top := 100 |};
              {| h_type := flora; h_bottom := 310; h_top := 300 |} ]
            table_touching 0
            {| h_type := fauna; h_bottom := 110; h_top := 100 |}
            _ _ _ eq_refl _ 1
            {| h_type := flora; h_bottom := 310; h_top := 300 |} eq_refl _).
  - vm_compute. reflexivity.
  - repeat constructor; unfold upright; vm_compute; discriminate.
  - vm_compute. reflexivity.
  - vm_compute. reflexivity.
  - discriminate.
Defined.





Lemma continuation_tables_all (page_num : nat) (last : SectionType) (hdr : Row)
    (ts : list Table) (o : Outputs) :
  Forall (fun x => matches_header hdr x = true) ts ->
  continuation_tables page_num last hdr ts o
  = Ok (absorb_tables page_num last hdr ts o, Some last).
Proof.
  intros H. revert o. induction H as [|x ts Hx _ IH]; intros o; [reflexivity|].
  cbn [continuation_tables]. unfold matches_header in Hx.
  destruct (extract x) as [[|f m]|e'] eqn:Ex; try discriminate.
  cbn [bind]. rewrite Hx, IH. unfold absorb_tables. cbn [fold_left].
  rewrite Ex. reflexivity.
Qed.

(** X5: a headerless page all of whose table regions match the stored
    header of the running section is absorbed whole: the section keeps its
    header, gains the rows of each region except those equal to the
    header, records the page number once per region, stays the running
    section, and no other section changes. *)
Theorem matching_continuation_page_is_absorbed
    (o : Outputs) (last : SectionType) (page_num : nat) (page : Page)
    (t : Table) (ts : list Table) (c : Cell) (hdr : Row) :
  headers_of_page page = Ok [] ->
  find_tables page lines_snap4 = Ok (t :: ts) ->
  header (get_section o last) = Some (c :: hdr) ->
  Forall (fun x => matches_header (c :: hdr) x = true) (t :: ts) ->
  exists o',
    process_page (o, Some last) (page_num, page) = Ok (o', Some last) /\
    get_section o' last
    = {| rows := rows (get_section o last)
                 ++ flat_map (kept_rows (c :: hdr)) (t :: ts);
         header := Some (c :: hdr);
         page_numbers := page_numbers (get_section o last)
                         ++ repeat page_num (List.length (t :: ts)) |} /\
    (forall s, s <> last -> get_section o' s = get_section o s).
Proof.
  intros Hh Ht Hhdr Hall.
  exists (absorb_tables page_num last (c :: hdr) (t :: ts) o).
  split; [|split].
  - rewrite (process_page_continuation o last page_num page (t :: ts) c hdr Hh Ht);
      [|discriminate|exact Hhdr].
    apply continuation_tables_all. exact Hall.
  - rewrite (absorb_tables_last _ _ _ _ _ Hall). rewrite Hhdr. reflexivity.
  - intros s Hs. apply absorb_tables_other. exact Hs.
Qed.

Lemma matching_continuation_page_is_absorbed_witness :
  exists o',
    process_page fauna_running (2, page_cont_match) = Ok (o', Some fauna) /\
    rows (get_section o' fauna)
    = [ [Some "Wombat"; Some "v"; Some "15-Jan-2024"];
        [Some "Devil"; Some "v"; Some "2024-01-15"] ] /\
    page_numbers (get_section o' fauna) = [1; 2].
Proof.
  destruct (matching_continuation_page_is_absorbed (fst fauna_running) fauna 2
              page_cont_match table_cont3 []
              (Some "Species") [Some "Status"; Some "Last Recorded"]
              eq_refl eq_refl eq_refl
              ltac:(repeat constructor))
    as (o' & Hrun & Hsec & _).
  exists o'. split; [exact Hrun|]. rewrite Hsec. split; reflexivity.
Defined.

Lemma process_page_tableless (st : State) (page_num : nat) (page : Page) :
  tableless page -> process_page st (page_num, page) = Ok st.
Proof.
  intros [Hh Ht]. destruct st as [o l]. unfold process_page.
  rewrite Ht, Hh. cbn [bind truthy]. destruct l; reflexivity.
Qed.

(** X6: pages without retained heading and without table change nothing:
    a running section survives any number of them, so a table continued
    after such pages is still absorbed. *)
Theorem tableless_pages_keep_running_section
    (st : State) (between : list (nat * Page)) (np : nat * Page) :
  Forall (fun x => tableless (snd x)) between ->
  for_each process_page between st = Ok st /\
  for_each process_page (between ++ [np]) st = process_page st np.
Proof.
  intros H.
  assert (Hidle : for_each process_page between st = Ok st).
  { induction H as [|[n p] between Hp _ IH]; [reflexivity|].
    cbn [for_each]. rewrite (process_page_tableless st n p Hp). exact IH. }
  split; [exact Hidle|].
  rewrite for_each_app, Hidle. cbn [bind for_each].
  destruct (process_page st np); reflexivity.
Qed.

Lemma tableless_pages_keep_running_section_witness :
  exists o',
    for_each process_page [(2, page_blank); (3, page_blank); (4, page_cont_match)]
      fauna_running = Ok (o', Some fauna) /\
    page_numbers (get_section o' fauna) = [1; 4].
Proof.
  destruct (tableless_pages_keep_running_section fauna_running
              [(2, page_blank); (3, page_blank)] (4, page_cont_match)
              ltac:(repeat constructor)) as [_ H].
  cbn [app] in H. rewrite H. eexists. split; [vm_compute; reflexivity|]. reflexivity.
Defined.

(** ** What a scan keeps true of every section *)

Section SectionInvariant.
Variable P : SectionType -> Section -> Prop.
Hypothesis P_heading :
  forall s page_num content sec,
    content <> [] -> P s sec -> P s (absorb_heading_table page_num content sec).
Hypothesis P_continuation :
  forall s page_num hdr content sec,
    header sec = Some hdr -> content <> [] -> P s sec ->
    P s (absorb_continuation page_num hdr content sec).

Let holds (o : Outputs) : Prop := forall s, P s (get_section o s).

Lemma holds_set (o : Outputs) (s : SectionType) (v : Section) :
  holds o -> P s v -> holds (set_section o s v).
Proof.
  intros Ho Hv s'. destruct (SectionType_eqb s s') eqn:E.
  - apply SectionType_eqb_eq in E. subst. rewrite get_set_same. exact Hv.
  - apply SectionType_eqb_neq in E. rewrite get_set_other by exact E. apply Ho.
Qed.

Lemma band_table_holds (page_num : nat) (ty : SectionType) (top bottom : Q)
    (o o' : Outputs) (t : Table) :
  holds o -> band_table page_num ty top bottom o t = Ok o' -> holds o'.
Proof.
  intros Ho. unfold band_table.
  destruct (Qle_bool top (bbox_1 t) && Qle_bool (bbox_3 t) bottom).
  - destruct (extract t) as [[|first more]|e]; cbn [bind truthy ret]; try discriminate.
    + intros H. injection H as <-. exact Ho.
    + intros H. injection H as <-. apply holds_set; [exact Ho|].
      apply (P_heading ty page_num (first :: more)); [discriminate | apply Ho].
  - intros H. injection H as <-. exact Ho.
Qed.

Lemma continuation_tables_holds (page_num : nat) (last : SectionType) (hdr : Row)
    (ts : list Table) (o : Outputs) (st' : State) :
  header (get_section o last) = Some hdr ->
  holds o ->
  continuation_tables page_num last hdr ts o = Ok st' ->
  holds (fst st').
Proof.
  revert o. induction ts as [|t ts IH]; intros o Hh Ho; cbn [continuation_tables].
  - intros H. injection H as <-. exact Ho.
  - destruct (extract t) as [[|first more]|e]; cbn [bind ret]; try discriminate.
    + intros H. injection H as <-. exact Ho.
    + destruct (List.length first =? List.length hdr).
      * apply IH.
        -- rewrite get_set_same. exact Hh.
        -- apply holds_set; [exact Ho|].
           apply (P_continuation last page_num hdr (first :: more));
             [exact Hh | discriminate | apply Ho].
      * intros H. injection H as <-. exact Ho.
Qed.

Lemma process_page_holds (st st' : State) (np : nat * Page) :
  holds (fst st) -> process_page st np = Ok st' -> holds (fst st').
Proof.
  destruct st as [o last], np as [n page]. cbn [fst]. intros Ho.
  unfold process_page.
  destruct (find_tables page lines_snap4) as [ts|e]; cbn [bind]; [|discriminate].
  destruct (headers_of_page page) as [hs|e]; cbn [bind]; [|discriminate].
  destruct (truthy hs).
  - apply (for_each_invariant (fun x : State => holds (fst x))); [|exact Ho].
    intros x [i hd] x' Hx. unfold band_heading.
    destruct (for_each _ ts (fst x)) as [o1|e] eqn:E; cbn [bind ret]; [|discriminate].
    intros H. injection H as <-. cbn [fst].
    revert E. apply (for_each_invariant holds); [|exact Hx].
    intros a t a'. apply band_table_holds.
  - destruct last as [last|]; [|intros H; injection H as <-; exact Ho].
    destruct (truthy ts); [|intros H; injection H as <-; exact Ho].
    destruct (header (get_section o last)) as [[|c hdr]|] eqn:Eh;
      try (intros H; injection H as <-; exact Ho).
    apply continuation_tables_holds; assumption.
Qed.

Lemma pages_hold (nps : list (nat * Page)) (st st' : State) :
  holds (fst st) -> for_each process_page nps st = Ok st' -> holds (fst st').
Proof.
  apply (for_each_invariant (fun x : State => holds (fst x))).
  intros x np x'. apply process_page_holds.
Qed.

End SectionInvariant.

Lemma scan_pages_app (pages more : list Page) :
  scan_pages (pages ++ more)
  = (st <- scan_pages pages ;;
     for_each process_page
       (combine (seq (S (List.length pages)) (List.length more)) more) st).
Proof.
  unfold scan_pages, enumerate1. rewrite length_app, seq_app.
  rewrite combine_app_same_length by (rewrite length_seq; reflexivity).
  apply for_each_app.
Qed.

Lemma absorb_heading_table_consistent (page_num : nat) (content : Grid) (sec : Section) :
  content <> [] -> section_consistent sec ->
  section_consistent (absorb_heading_table page_num content sec).
Proof.
  intros Hc _. unfold section_consistent, absorb_heading_table.
  destruct content as [|first more]; [congruence|]. cbn [header rows page_numbers].
  split; [split|]; try discriminate.
  intros H. destruct (page_numbers sec); discriminate.
Qed.

Lemma absorb_continuation_consistent (page_num : nat) (hdr : Row) (content : Grid)
    (sec : Section) :
  header sec = Some hdr -> section_consistent sec ->
  section_consistent (absorb_continuation page_num hdr content sec).
Proof.
  intros Hh _. unfold section_consistent, absorb_continuation.
  cbn [header rows page_numbers]. rewrite Hh.
  split; [split|]; try discriminate.
  intros H. destruct (page_numbers sec); discriminate.
Qed.

(** X7: at every point of a scan, a section has a header exactly when a
    table region has been attributed to it (its page list is not empty),
    and it has rows only if it has a header. *)
Theorem header_set_iff_region_attributed
    (pages : list Page) (st : State) (s : SectionType) :
  scan_pages pages = Ok st ->
  (header (get_section (fst st) s) = None
   <-> page_numbers (get_section (fst st) s) = []) /\
  (header (get_section (fst st) s) = None -> rows (get_section (fst st) s) = []).
Proof.
  intros Hscan.
  apply (pages_hold (fun _ => section_consistent)) with (s := s) in Hscan.
  - exact Hscan.
  - intros _ n content sec. apply absorb_heading_table_consistent.
  - intros _ n hdr content sec Hh _. apply absorb_continuation_consistent. exact Hh.
  - intros s'. destruct s'; (split; [split|]; reflexivity).
Qed.

Lemma header_set_iff_region_attributed_witness :
  exists st,
    scan_pages [page_table_above_heading; page_cont_match] = Ok st /\
    header (get_section (fst st) flora) = None /\
    page_numbers (get_section (fst st) flora) = [] /\
    rows (get_section (fst st) flora) = [].
Proof.
  destruct (scan_pages [page_table_above_heading; page_cont_match])
    as [st|e] eqn:Hscan; [|vm_compute in Hscan; discriminate].
  destruct (header_set_iff_region_attributed _ st flora Hscan) as [Hiff Hrows].
  assert (Hnone : header (get_section (fst st) flora) = None).
  { vm_compute in Hscan. injection Hscan as <-. reflexivity. }
  exists st. split; [reflexivity|]. split; [exact Hnone|].
  split; [apply Hiff; exact Hnone | apply Hrows; exact Hnone].
Defined.

Lemma section_grows_refl (sec : Section) : section_grows sec sec.
Proof.
  split; [auto|]. split; exists []; rewrite app_nil_r; reflexivity.
Qed.

Lemma section_grows_heading (old : Section) (page_num : nat) (content : Grid)
    (sec : Section) :
  section_grows old sec ->
  section_grows old (absorb_heading_table page_num content sec).
Proof.
  intros (Hh & [r Hr] & [p Hp]). unfold absorb_heading_table.
  destruct content as [|first more]; [repeat split; eauto|].
  cbn [header rows page_numbers]. split; [|split].
  - intros h Hold. rewrite (Hh h Hold). reflexivity.
  - eexists. rewrite Hr, <- app_assoc. reflexivity.
  - eexists. rewrite Hp, <- app_assoc. reflexivity.
Qed.

Lemma section_grows_continuation (old : Section) (page_num : nat) (hdr : Row)
    (content : Grid) (sec : Section) :
  section_grows old sec ->
  section_grows old (absorb_continuation page_num hdr content sec).
Proof.
  intros (Hh & [r Hr] & [p Hp]). unfold absorb_continuation.
  cbn [header rows page_numbers]. split; [exact Hh|split].
  - eexists. rewrite Hr, <- app_assoc. reflexivity.
  - eexists. rewrite Hp, <- app_assoc. reflexivity.
Qed.

(** X8: scanning further pages only adds to a section: a header that is
    set is never replaced, and the rows and page numbers gathered so far
    remain, in place, at the front of the later lists. *)
Theorem sections_only_grow
    (pages more : list Page) (st st' : State) (s : SectionType) :
  scan_pages pages = Ok st ->
  scan_pages (pages ++ more) = Ok st' ->
  (forall h, header (get_section (fst st) s) = Some h ->
     header (get_section (fst st') s) = Some h) /\
  (exists added,
     rows (get_section (fst st') s) = rows (get_section (fst st) s) ++ added) /\
  (exists added,
     page_numbers (get_section (fst st') s)
     = page_numbers (get_section (fst st) s) ++ added).
Proof.
  intros Hst Hst'. rewrite scan_pages_app, Hst in Hst'. cbn [bind] in Hst'.
  apply (pages_hold (fun x sec => section_grows (get_section (fst st) x) sec))
    with (s := s) in Hst'.
  - exact Hst'.
  - intros x n content sec _. apply section_grows_heading.
  - intros x n hdr content sec _ _. apply section_grows_continuation.
  - intros x. apply section_grows_refl.
Qed.

Lemma sections_only_grow_witness :
  exists st',
    scan_pages ([page_fauna] ++ [page_touching; page_cont_match]) = Ok st' /\
    header (get_section (fst st') fauna) = Some fauna_header /\
    exists added,
      rows (get_section (fst st') fauna)
      = [[Some "Wombat"; Some "v"; Some "15-Jan-2024"]] ++ added.
Proof.
  destruct (scan_pages ([page_fauna] ++ [page_touching; page_cont_match]))
    as [st'|e] eqn:H2; [|vm_compute in H2; discriminate].
  destruct (sections_only_grow [page_fauna] [page_touching; page_cont_match]
              fauna_running st' fauna ltac:(vm_compute; reflexivity) H2)
    as (Hh & Hr & _).
  exists st'. split; [reflexivity|]. split.
  - apply Hh. reflexivity.
  - exact Hr.
Defined.

(** ** The assembled tables *)

Lemma scan_consistent (pages : list Page) (st : State) (s : SectionType) :
  scan_pages pages = Ok st -> section_consistent (get_section (fst st) s).
Proof.
  intros Hscan.
  apply (pages_hold (fun _ => section_consistent)) with (s := s) in Hscan.
  - exact Hscan.
  - intros _ n content sec. apply absorb_heading_table_consistent.
  - intros _ n hdr content sec Hh _. apply absorb_continuation_consistent. exact Hh.
  - intros s'. destruct s'; (split; [split|]; reflexivity).
Qed.

Lemma sorted_app_repeat (l : list nat) (n k : nat) :
  Sorted le l -> Forall (fun q => q <= n) l -> Sorted le (l ++ repeat n k).
Proof.
  intros Hs Hall. induction Hs as [|x l Hs IH Hhd]; simpl.
  - induction k as [|k IHk]; simpl; [constructor|].
    constructor; [exact IHk|]. destruct k; simpl; constructor. lia.
  - inversion Hall as [|? ? Hx Hl]. subst.
    constructor; [apply IH; exact Hl|].
    destruct l as [|y l]; simpl.
    + destruct k; simpl; constructor. exact Hx.
    + constructor. inversion Hhd. assumption.
Qed.

Lemma scan_pages_sorted (pages : list Page) (s : SectionType) :
  forall st, scan_pages pages = Ok st ->
             Sorted le (page_numbers (get_section (fst st) s)).
Proof.
  induction pages as [|p pages IH] using rev_ind; intros st Hscan.
  - injection Hscan as <-. destruct s; constructor.
  - rewrite scan_pages_snoc in Hscan.
    destruct (scan_pages pages) as [st0|e] eqn:E0; cbn [bind] in Hscan; [|discriminate].
    rewrite (process_page_pages _ _ _ _ s Hscan).
    apply sorted_app_repeat; [apply IH; reflexivity|].
    pose proof (scan_pages_bound pages st0 s E0) as Hb.
    rewrite Forall_forall in *. intros q Hq. specialize (Hb q Hq). lia.
Qed.

Section Assembled.
Context {datelib : DateLib}.

Lemma collect_rows_length (hdr : Row) (cleaned : list Row) (acc acc' : list Dict) :
  for_each (fun a row => d <- process_row hdr row ;; ret (a ++ [d])) cleaned acc = Ok acc' ->
  List.length acc' = List.length acc + List.length cleaned.
Proof.
  revert acc. induction cleaned as [|row cleaned IH]; intros acc; cbn [for_each].
  - intros H. injection H as <-. simpl. lia.
  - destruct (process_row hdr row) as [d|e]; cbn [bind ret]; [|discriminate].
    intros H. rewrite (IH _ H), length_app. simpl. lia.
Qed.

Lemma clean_and_process_shape (rws : list Row) (hdr : Row) (p : Processed) :
  hdr <> [] -> rws <> [] ->
  clean_and_process_table_data rws hdr = Ok p ->
  p_headers p = hdr /\
  p_rows p = map (clean_row (List.length hdr)) rws /\
  List.length (p_processed_data p) = List.length rws.
Proof.
  intros Hh Hr. unfold clean_and_process_table_data.
  destruct hdr as [|c hdr]; [congruence|]. destruct rws as [|r rws]; [congruence|].
  cbn [truthy negb orb].
  destruct (for_each _ (map (clean_row (List.length (c :: hdr))) (r :: rws)) [])
    as [pd|e] eqn:E; cbn [bind ret]; [|discriminate].
  intros H. injection H as <-. cbn [p_headers p_rows p_processed_data].
  repeat split. rewrite (collect_rows_length _ _ _ _ E), length_map. reflexivity.
Qed.

Lemma finalize_sections (o : Outputs) (l : list SectionType)
    (acc : list TableInfo) (k : nat) (res : list TableInfo * nat) :
  for_each (finalize_section o) l (acc, k) = Ok res ->
  exists new,
    fst res = acc ++ new /\
    snd res = k + List.length new /\
    map tableName new = map section_name (filter (is_populated o) l) /\
    map pageNumber new
    = map (fun s => page_numbers (get_section o s)) (filter (is_populated o) l) /\
    map headers new
    = map (fun s => match header (get_section o s) with
                    | Some h => h
                    | None => []
                    end) (filter (is_populated o) l) /\
    map tableIndex new = seq k (List.length new) /\
    Forall table_well_formed new.
Proof.
  revert acc k. induction l as [|s l IH]; intros acc k; cbn [for_each].
  - intros H. injection H as <-. exists []. rewrite app_nil_r. cbn.
    repeat split; try lia. constructor.
  - unfold finalize_section at 1. unfold is_populated at 1 2 3. cbn [filter].
    destruct (rows (get_section o s)) as [|r rws] eqn:Er.
    + cbn [bind ret]. apply IH.
    + destruct (header (get_section o s)) as [[|c hdr]|] eqn:Eh;
        try (cbn [bind ret]; apply IH).
      destruct (clean_and_process_table_data (r :: rws) (c :: hdr)) as [p|e] eqn:Ep;
        cbn [bind ret]; [|discriminate].
      destruct (clean_and_process_shape (r :: rws) (c :: hdr) p
                  ltac:(discriminate) ltac:(discriminate) Ep) as (Hph & Hpr & Hpl).
      intros H. destruct (IH _ _ H) as (new & Hf & Hk & Hn & Hp & Hhd & Hi & Hwf).
      eexists (_ :: new). split; [|split; [|split; [|split; [|split; [|split]]]]].
      * rewrite Hf, <- app_assoc. reflexivity.
      * rewrite Hk. simpl. lia.
      * cbn [map tableName]. rewrite Hn. reflexivity.
      * cbn [map pageNumber]. rewrite Hp. reflexivity.
      * cbn [map headers]. rewrite Hhd, Eh, Hph. reflexivity.
      * cbn [map tableIndex List.length seq]. rewrite Hi.
        replace (k + 1) with (S k) by lia. reflexivity.
      * constructor; [|exact Hwf].
        unfold table_well_formed.
        cbn [headers t_rows record_count processed_data mergedCells t_bbox].
        rewrite Hph, Hpr, Hpl, length_map.
        repeat split; try discriminate.
        apply Forall_forall. intros row Hin. apply in_map_iff in Hin.
        destruct Hin as [raw [<- _]]. apply clean_row_length.
Qed.

Lemma extract_nvr_tables_ok (pages : list Page) (tbls : list TableInfo) :
  extract_nvr_tables pages = Ok tbls ->
  exists st,
    scan_pages pages = Ok st /\
    map tableName tbls = map section_name (filter (is_populated (fst st)) section_order) /\
    map pageNumber tbls
    = map (fun s => page_numbers (get_section (fst st) s))
        (filter (is_populated (fst st)) section_order) /\
    map headers tbls
    = map (fun s => match header (get_section (fst st) s) with
                    | Some h => h
                    | None => []
                    end) (filter (is_populated (fst st)) section_order) /\
    map tableIndex tbls = seq 0 (List.length tbls) /\
    Forall table_well_formed tbls.
Proof.
  unfold extract_nvr_tables, log_and_reraise.
  destruct (scan_pages pages) as [st|e] eqn:Es; cbn [bind]; [|discriminate].
  destruct (for_each (finalize_section (fst st)) section_order ([], 0))
    as [res|e] eqn:Ef; cbn [bind ret]; [|discriminate].
  intros H. injection H as <-.
  destruct (finalize_sections _ _ _ _ _ Ef) as (new & Hf & _ & Hn & Hp & Hh & Hi & Hwf).
  cbn [app] in Hf. rewrite Hf. exists st. auto 10.
Qed.

End Assembled.

(** X9: the assembled tables come in the fixed order flora, fauna,
    flora_range, fauna_range, one for each section that has rows and a
    non-empty header and for no other; so there are at most four, their
    names are pairwise distinct, and their [tableIndex] counts them from 0
    without gap. *)
Theorem tables_follow_section_order
    (datelib : DateLib) (pages : list Page) (tbls : list TableInfo) :
  extract_nvr_tables pages = Ok tbls ->
  exists st,
    scan_pages pages = Ok st /\
    map tableName tbls
    = map section_name (filter (is_populated (fst st)) [flora; fauna; flora_range; fauna_range]) /\
    map tableIndex tbls = seq 0 (List.length tbls) /\
    List.length tbls <= 4 /\
    NoDup (map tableName tbls).
Proof.
  intros H. destruct (extract_nvr_tables_ok pages tbls H)
    as (st & Hs & Hn & _ & _ & Hi & _).
  exists st. split; [exact Hs|]. split; [exact Hn|]. split; [exact Hi|].
  assert (Hlen : List.length tbls
                 = List.length (filter (is_populated (fst st)) section_order)).
  { rewrite <- (length_map tableName), Hn, length_map. reflexivity. }
  split.
  - rewrite Hlen. unfold section_order. cbn [filter].
    destruct (is_populated (fst st) flora), (is_populated (fst st) fauna),
      (is_populated (fst st) flora_range), (is_populated (fst st) fauna_range);
      simpl; lia.
  - rewrite Hn. unfold section_order. cbn [filter].
    destruct (is_populated (fst st) flora), (is_populated (fst st) fauna),
      (is_populated (fst st) flora_range), (is_populated (fst st) fauna_range);
      cbn [map section_name];
      repeat (constructor; [simpl; intuition discriminate|]); constructor.
Qed.

Lemma tables_follow_section_order_witness :
  exists tbls,
    extract_nvr_tables (datelib := pandas_strict) [page_touching; page_fauna] = Ok tbls /\
    map tableName tbls = ["fauna"] /\
    map tableIndex tbls = [0].
Proof.
  destruct (extract_nvr_tables (datelib := pandas_strict) [page_touching; page_fauna])
    as [tbls|e] eqn:H; [|vm_compute in H; discriminate].
  destruct (tables_follow_section_order pandas_strict _ tbls H)
    as (st & Hs & Hn & Hi & _).
  assert (Hst : scan_pages [page_touching; page_fauna] = Ok st) by exact Hs.
  vm_compute in Hst. injection Hst as <-.
  exists tbls. split; [reflexivity|]. split; [exact Hn|].
  rewrite Hi. apply (f_equal (@List.length string)) in Hn.
  rewrite length_map in Hn. rewrite Hn. reflexivity.
Defined.

(** X10: every assembled table has a non-empty header and at least one
    row; [record_count] is the number of its records, which is the number
    of its rows; and each of its rows has exactly as many cells as the
    header. *)
Theorem assembled_tables_are_well_formed
    (datelib : DateLib) (pages : list Page) (tbls : list TableInfo) :
  extract_nvr_tables pages = Ok tbls ->
  Forall (fun t =>
            headers t <> [] /\
            t_rows t <> [] /\
            record_count t = List.length (processed_data t) /\
            List.length (processed_data t) = List.length (t_rows t) /\
            Forall (fun row => List.length row = List.length (headers t)) (t_rows t) /\
            mergedCells t = [] /\
            t_bbox t = [0; 0; 0; 0]) tbls.
Proof.
  intros H. destruct (extract_nvr_tables_ok pages tbls H)
    as (_ & _ & _ & _ & _ & _ & Hwf).
  exact Hwf.
Qed.

Lemma assembled_tables_are_well_formed_witness :
  exists t,
    extract_nvr_tables (datelib := pandas_strict) [page_fauna; page_cont_mismatch] = Ok [t] /\
    record_count t = 1 /\
    Forall (fun row => List.length row = 3) (t_rows t).
Proof.
  destruct (extract_nvr_tables (datelib := pandas_strict) [page_fauna; page_cont_mismatch])
    as [tbls|e] eqn:H; [|vm_compute in H; discriminate].
  pose proof (assembled_tables_are_well_formed pandas_strict _ tbls H) as Hwf.
  vm_compute in H. injection H as <-.
  eexists. split; [reflexivity|]. split; [reflexivity|].
  inversion Hwf as [|? ? (_ & _ & _ & _ & Hrows & _) _]. exact Hrows.
Defined.

(** X11: the [pageNumber] list of every assembled table is not empty, is
    in non-decreasing order, and holds only numbers of pages of the
    document, counted from 1. *)
Theorem table_page_numbers_are_ordered_page_numbers
    (datelib : DateLib) (pages : list Page) (tbls : list TableInfo) :
  extract_nvr_tables pages = Ok tbls ->
  Forall (fun t =>
            pageNumber t <> [] /\
            Sorted le (pageNumber t) /\
            Forall (fun q => 1 <= q <= List.length pages) (pageNumber t)) tbls.
Proof.
  intros H. destruct (extract_nvr_tables_ok pages tbls H)
    as (st & Hs & _ & Hp & _ & _ & _).
  assert (Hall : Forall (fun pn => pn <> [] /\ Sorted le pn
                                  /\ Forall (fun q => 1 <= q <= List.length pages) pn)
                   (map pageNumber tbls)).
  { rewrite Hp. apply Forall_forall. intros pn Hin.
    apply in_map_iff in Hin. destruct Hin as [s [<- Hs']].
    apply filter_In in Hs'. destruct Hs' as [_ Hpop].
    split; [|split].
    - destruct (scan_consistent pages st s Hs) as [[_ Hiff] _].
      intros Hnil. specialize (Hiff Hnil).
      unfold is_populated in Hpop. rewrite Hiff in Hpop.
      destruct (rows (get_section (fst st) s)); discriminate.
    - apply (scan_pages_sorted pages s st Hs).
    - apply (scan_pages_bound pages st s Hs). }
  rewrite Forall_map in Hall. exact Hall.
Qed.

Lemma table_page_numbers_are_ordered_page_numbers_witness :
  exists t,
    extract_nvr_tables (datelib := pandas_strict) [page_blank; page_two_tables; page_cont_match]
    = Ok [t] /\
    pageNumber t = [2; 2; 3] /\
    Sorted le (pageNumber t).
Proof.
  destruct (extract_nvr_tables (datelib := pandas_strict)
              [page_blank; page_two_tables; page_cont_match])
    as [tbls|e] eqn:H; [|vm_compute in H; discriminate].
  pose proof (table_page_numbers_are_ordered_page_numbers pandas_strict _ tbls H) as Hall.
  vm_compute in H. injection H as <-.
  eexists. split; [reflexivity|]. split; [reflexivity|].
  inversion Hall as [|? ? (_ & Hsorted & _) _]. exact Hsorted.
Defined.

(** * Further properties of the normalizer *)





Section NormalizerFacts.
Context {datelib : DateLib}.







End NormalizerFacts.



Lemma cell_eqb_neq (a b : Cell) : cell_eqb a b = false <-> a <> b.
Proof.
  split.
  - intros H Heq. apply cell_eqb_eq in Heq. congruence.
  - intros H. destruct (cell_eqb a b) eqn:E; [|reflexivity].
    apply cell_eqb_eq in E. contradiction.
Qed.

Lemma dict_set_keys (d : Dict) (k v k' : Cell) :
  In k' (dict_keys (dict_set d k v)) <-> k' = k \/ In k' (dict_keys d).
Proof.
  induction d as [|[k0 v0] d IH]; simpl.
  - intuition.
  - destruct (cell_eqb k0 k) eqn:E; simpl.
    + apply cell_eqb_eq in E. subst. intuition.
    + rewrite IH. intuition.
Qed.

Lemma dict_set_nodup (d : Dict) (k v : Cell) :
  NoDup (dict_keys d) -> NoDup (dict_keys (dict_set d k v)).
Proof.
  induction d as [|[k0 v0] d IH]; simpl; intros H.
  - constructor; [intros []|constructor].
  - inversion H as [|? ? Hnot Hd]. subst.
    destruct (cell_eqb k0 k) eqn:E; simpl.
    + constructor; assumption.
    + constructor; [|apply IH; exact Hd].
      intros Hin. apply dict_set_keys in Hin. destruct Hin as [->|Hin].
      * apply cell_eqb_neq in E. congruence.
      * contradiction.
Qed.

Lemma dict_set_length (d : Dict) (k v : Cell) :
  List.length (dict_set d k v) <= S (List.length d).
Proof.
  induction d as [|[k0 v0] d IH]; simpl; [lia|].
  destruct (cell_eqb k0 k); simpl; lia.
Qed.

Lemma dict_lookup_set_same (d : Dict) (k v : Cell) :
  dict_lookup (dict_set d k v) k = Some v.
Proof.
  induction d as [|[k0 v0] d IH]; simpl.
  - replace (cell_eqb k k) with true by (symmetry; apply cell_eqb_eq; reflexivity).
    reflexivity.
  - destruct (cell_eqb k0 k) eqn:E; simpl; rewrite E; [reflexivity | exact IH].
Qed.

Lemma dict_lookup_set_other (d : Dict) (k v k' : Cell) :
  k' <> k -> dict_lookup (dict_set d k v) k' = dict_lookup d k'.
Proof.
  intros Hne. induction d as [|[k0 v0] d IH]; simpl.
  - replace (cell_eqb k k') with false
      by (symmetry; apply cell_eqb_neq; congruence).
    reflexivity.
  - destruct (cell_eqb k0 k) eqn:E; simpl.
    + apply cell_eqb_eq in E. subst k0.
      replace (cell_eqb k k') with false
        by (symmetry; apply cell_eqb_neq; congruence).
      reflexivity.
    + rewrite IH. reflexivity.
Qed.

Section Records.
Context {datelib : DateLib}.

Lemma process_columns_record (row : Row) (hs : Row) (k0 : nat) (acc d : Dict) :
  for_each (process_column row) (combine (seq k0 (List.length hs)) hs) acc = Ok d ->
  (NoDup (dict_keys acc) -> NoDup (dict_keys d)) /\
  (forall k, In k (dict_keys d) <-> In k (dict_keys acc) \/ In k hs) /\
  (forall k, ~ In k hs -> dict_lookup d k = dict_lookup acc k) /\
  (forall j k, nth_error hs j = Some k ->
     (forall j', j < j' -> nth_error hs j' <> Some k) ->
     exists v, clean_value k (nth (k0 + j) row None) = Ok v /\ dict_lookup d k = Some v) /\
  List.length d <= List.length acc + List.length hs.
Proof.
  revert k0 acc. induction hs as [|h hs IH]; intros k0 acc.
  - cbn. intros H. injection H as <-.
    split; [auto|]. split; [intuition|]. split; [auto|].
    split; [intros [|j] k Hj; simpl in Hj; discriminate Hj | simpl; lia].
  - cbn [List.length seq combine for_each]. unfold process_column at 1.
    rewrite nth_guarded.
    destruct (clean_value h (nth k0 row None)) as [v|e] eqn:Ev; cbn [bind ret];
      [|discriminate].
    intros H. destruct (IH _ _ H) as (Hnd & Hkeys & Hother & Hlast & Hlen).
    split; [|split; [|split; [|split]]].
    + intros Hacc. apply Hnd. apply dict_set_nodup. exact Hacc.
    + intros k. rewrite Hkeys, dict_set_keys. simpl. intuition.
    + intros k Hk. rewrite Hother by (intros Hin; apply Hk; right; exact Hin).
      apply dict_lookup_set_other. intros ->. apply Hk. left. reflexivity.
    + intros [|j] k Hj Hlater.
      * simpl in Hj. injection Hj as ->. exists v. rewrite Nat.add_0_r.
        split; [exact Ev|].
        rewrite Hother.
        -- apply dict_lookup_set_same.
        -- intros Hin. apply In_nth_error in Hin. destruct Hin as [j' Hj'].
           apply (Hlater (S j')); [lia | exact Hj'].
      * simpl in Hj. destruct (Hlast j k Hj) as (w & Hw & Hl).
        -- intros j' Hlt Hj'. apply (Hlater (S j')); [lia | exact Hj'].
        -- exists w. replace (k0 + S j) with (S k0 + j) by lia. split; assumption.
    + pose proof (dict_set_length acc h v). simpl. lia.
Qed.

End Records.

(** X13: the record built for a row has pairwise distinct keys; its keys
    are exactly the cells of the header; under a header cell that occurs
    several times it holds the cleaned value of the last column so named;
    and it has at most as many entries as the header has cells. *)
Theorem record_keeps_last_value_of_repeated_name
    (datelib : DateLib) (hdr row : Row) (d : Dict) :
  process_row hdr row = Ok d ->
  NoDup (dict_keys d) /\
  (forall k, In k (dict_keys d) <-> In k hdr) /\
  (forall j k, nth_error hdr j = Some k ->
     (forall j', j < j' -> nth_error hdr j' <> Some k) ->
     exists v, clean_value k (nth j row None) = Ok v /\ dict_lookup d k = Some v) /\
  List.length d <= List.length hdr.
Proof.
  unfold process_row, enumerate. intros H.
  destruct (process_columns_record row hdr 0 [] d H)
    as (Hnd & Hkeys & _ & Hlast & Hlen).
  split; [apply Hnd; constructor|]. split; [|split].
  - intros k. rewrite Hkeys. simpl. intuition.
  - exact Hlast.
  - exact Hlen.
Qed.

Lemma record_keeps_last_value_of_repeated_name_witness :
  exists d,
    process_row (datelib := pandas_strict)
      [Some "Status"; Some "Species"; Some "Status"]
      [Some "first"; Some "Wombat"; Some "second"] = Ok d /\
    dict_lookup d (Some "Status") = Some (Some "second") /\
    List.length d = 2.
Proof.
  destruct (process_row (datelib := pandas_strict)
              [Some "Status"; Some "Species"; Some "Status"]
              [Some "first"; Some "Wombat"; Some "second"]) as [d|e] eqn:H;
    [|vm_compute in H; discriminate].
  destruct (record_keeps_last_value_of_repeated_name pandas_strict _ _ d H)
    as (_ & _ & Hlast & _).
  destruct (Hlast 2 (Some "Status") eq_refl) as (v & Hv & Hl).
  { intros j' Hlt Hj'.
    destruct j' as [|[|[|j']]]; try lia. simpl in Hj'. destruct j'; discriminate. }
  exists d. split; [reflexivity|]. split.
  - rewrite Hl. f_equal. vm_compute in Hv. injection Hv as <-. reflexivity.
  - vm_compute in H. injection H as <-. reflexivity.
Defined.

(** ** Text cells *)











(** * Further properties of the drivers *)







(** ** Downloads and the HTTP entry point *)

Lemma cut_at_found (sep : ascii) (before after : string) :
  mem_char sep before = false ->
  cut_at sep (before ++ String sep after) = (before, Some after).
Proof.
  induction before as [|c b IH]; simpl.
  - intros _. rewrite Ascii.eqb_refl. reflexivity.
  - intros H. apply orb_false_iff in H. destruct H as [Hc Hb].
    rewrite Hc, (IH Hb). reflexivity.
Qed.

Lemma cut_at_missing (sep : ascii) (s : string) :
  mem_char sep s = false -> cut_at sep s = (s, None).
Proof.
  induction s as [|c s IH]; simpl; [reflexivity|].
  intros H. apply orb_false_iff in H. destruct H as [Hc Hs].
  rewrite Hc, (IH Hs). reflexivity.
Qed.

Lemma cut_at_join (sep : ascii) (s before after : string) :
  cut_at sep s = (before, Some after) ->
  s = (before ++ String sep after)%string /\ mem_char sep before = false.
Proof.
  revert before. induction s as [|c s IH]; intros before; simpl; [discriminate|].
  destruct (Ascii.eqb c sep) eqn:E.
  - intros H. injection H as <- <-. apply Ascii.eqb_eq in E. subst. split; reflexivity.
  - destruct (cut_at sep s) as [b a] eqn:Ec. intros H. injection H as <- ->.
    destruct (IH b eq_refl) as [-> Hb]. split; [reflexivity|].
    simpl. rewrite E, Hb. reflexivity.
Qed.

Lemma prefix_gs (rest : string) : String.prefix "gs://" ("gs://" ++ rest) = true.
Proof. destruct rest; reflexivity. Qed.

Lemma prefix_cons_inv (a : ascii) (s1 s2 : string) :
  String.prefix (String a s1) s2 = true ->
  exists s2', s2 = String a s2' /\ String.prefix s1 s2' = true.
Proof.
  destruct s2 as [|b s2]; cbn [String.prefix]; [discriminate|].
  destruct (ascii_dec a b) as [<-|]; [|discriminate].
  intros H. exists s2. split; [reflexivity | exact H].
Qed.

Lemma prefix_gs_inv (url : string) :
  String.prefix "gs://" url = true -> url = ("gs://" ++ string_drop 5 url)%string.
Proof.
  intros H.
  apply prefix_cons_inv in H. destruct H as (u1 & -> & H).
  apply prefix_cons_inv in H. destruct H as (u2 & -> & H).
  apply prefix_cons_inv in H. destruct H as (u3 & -> & H).
  apply prefix_cons_inv in H. destruct H as (u4 & -> & H).
  apply prefix_cons_inv in H. destruct H as (u5 & -> & H).
  reflexivity.
Qed.

(** X17: [download_from_gcs] takes the bucket to be the text between
    "gs://" and the first following slash, and the blob to be everything
    after that slash, further slashes included; it asks Cloud Storage for
    exactly that pair, and every pair it asks for spells the URL back.  A
    URL with no slash after "gs://" raises [ValueError] ("Invalid GCS URL
    format") without any download, as does a URL that does not begin with
    "gs://" ("Invalid GCS URL"). *)
Theorem gcs_url_splits_at_first_slash
    (Bytes : Type) (gcs_get : string -> string -> result Bytes) :
  (forall bucket blob,
     mem_char "/" bucket = false ->
     download_from_gcs Bytes gcs_get ("gs://" ++ bucket ++ "/" ++ blob)
     = gcs_get bucket blob) /\
  (forall rest,
     mem_char "/" rest = false ->
     download_from_gcs Bytes gcs_get ("gs://" ++ rest)
     = Raise (value_error ("Invalid GCS URL format: gs://" ++ rest))) /\
  (forall url,
     String.prefix "gs://" url = false ->
     download_from_gcs Bytes gcs_get url
     = Raise (value_error ("Invalid GCS URL: " ++ url))) /\
  (forall url,
     (forall e, download_from_gcs Bytes gcs_get url <> Raise (value_error e)) ->
     exists bucket blob,
       url = ("gs://" ++ bucket ++ "/" ++ blob)%string /\
       mem_char "/" bucket = false /\
       download_from_gcs Bytes gcs_get url = gcs_get bucket blob).
Proof.
  split; [|split; [|split]].
  - intros bucket blob Hb. unfold download_from_gcs, split_once.
    rewrite prefix_gs. cbn [negb append string_drop].
    change (bucket ++ String "/" blob)%string
      with (bucket ++ String "/" blob)%string.
    rewrite (cut_at_found "/" bucket blob Hb). reflexivity.
  - intros rest Hr. unfold download_from_gcs, split_once.
    rewrite prefix_gs. cbn [negb append string_drop].
    rewrite (cut_at_missing "/" rest Hr). reflexivity.
  - intros url Hp. unfold download_from_gcs. rewrite Hp. reflexivity.
  - intros url Hok. unfold download_from_gcs in *.
    destruct (String.prefix "gs://" url) eqn:Hp; cbn [negb] in *;
      [|exfalso; apply (Hok _ eq_refl)].
    unfold split_once in *.
    destruct (cut_at "/" (string_drop 5 url)) as [b [a|]] eqn:Ec;
      [|exfalso; apply (Hok _ eq_refl)].
    destruct (cut_at_join _ _ _ _ Ec) as [Hs Hb].
    exists b, a. split; [|split; [exact Hb | reflexivity]].
    rewrite (prefix_gs_inv url Hp) at 1. rewrite Hs. reflexivity.
Qed.

Lemma gcs_url_splits_at_first_slash_witness :
  download_from_gcs string (fun bucket blob => Ok (blob ++ "@" ++ bucket)%string)
    "gs://reports/2024/nvr.pdf"
  = Ok "2024/nvr.pdf@reports".
Proof.
  exact (proj1 (gcs_url_splits_at_first_slash string
                  (fun bucket blob => Ok (blob ++ "@" ++ bucket)%string))
           "reports" "2024/nvr.pdf" eq_refl).
Defined.



Section Requests.
Context {datelib : DateLib}.
Variable Bytes : Type.
Variable gcs_get : string -> string -> result Bytes.
Variable http_get : string -> result Bytes.
Variable open_bytes : Bytes -> result (list Page).
Variable temp_path : string.



End Requests.



(** X19: for a request with a [fileUrl] that begins with "gs://" or with
    "http" (tested in this order), the answer is that of the chain
    download, open, extract: if every stage returns, 200 with the tables,
    their count, and the status "completed", or "completed_no_tables" and
    a message when there is none; if any stage raises, 500 with the status
    "failed", no table and [str(e)].  Either way the answer carries the
    request's [extractionId], "default" when it has none. *)
Theorem accepted_request_runs_download_open_extract
    (datelib : DateLib) (Bytes : Type)
    (gcs_get : string -> string -> result Bytes) (http_get : string -> result Bytes)
    (open_bytes : Bytes -> result (list Page)) (temp_path : string)
    (d : JsonBody) (url : string) :
  json_get d "fileUrl" = Some url ->
  String.prefix "gs://" url = true \/ String.prefix "http" url = true ->
  let id := json_get_default d "extractionId" "default" in
  let download :=
    if String.prefix "gs://" url then download_from_gcs Bytes gcs_get url
    else http_get url in
  @extractPdfTables datelib Bytes gcs_get http_get open_bytes temp_path (Some d)
  = match (content <- download ;; pages <- open_bytes content ;;
           extract_nvr_tables pages) with
    | Ok tbls =>
        (ResultBody {| extractionId := id;
                       status := match tbls with
                                 | [] => "completed_no_tables"
                                 | _ :: _ => "completed"
                                 end;
                       r_tables := tbls;
                       r_table_count := Some (List.length tbls);
                       r_message := match tbls with
                                    | [] => Some "No NVR species tables found in document"
                                    | _ :: _ => None
                                    end;
                       r_error := None |}, 200)
    | Raise e =>
        (ResultBody {| extractionId := id;
                       status := "failed";
                       r_tables := [];
                       r_table_count := None;
                       r_message := None;
                       r_error := Some (exn_str e) |}, 500)
    end.
Proof.
  intros Hf Hscheme. cbv zeta. unfold extractPdfTables.
  destruct d as [|kv d]; [discriminate|]. rewrite Hf.
  destruct url as [|c url]; [destruct Hscheme; discriminate|].
  assert (Hrun : forall dl : result Bytes,
            match dl with
            | Raise e => request_failed
                           (json_get_default (kv :: d) "extractionId" "default") e
            | Ok content =>
                let (r, code) :=
                  extractPdfTables_run (fun _ => open_bytes content) temp_path
                    (json_get_default (kv :: d) "extractionId" "default") in
                (ResultBody r, code)
            end
            = match (content <- dl ;; pages <- open_bytes content ;;
                     extract_nvr_tables pages) with
              | Ok tbls =>
                  (ResultBody
                     {| extractionId := json_get_default (kv :: d) "extractionId" "default";
                        status := match tbls with
                                  | [] => "completed_no_tables"
                                  | _ :: _ => "completed"
                                  end;
                        r_tables := tbls;
                        r_table_count := Some (List.length tbls);
                        r_message := match tbls with
                                     | [] => Some "No NVR species tables found in document"
                                     | _ :: _ => None
                                     end;
                        r_error := None |}, 200)
              | Raise e =>
                  (ResultBody
                     {| extractionId := json_get_default (kv :: d) "extractionId" "default";
                        status := "failed";
                        r_tables := [];
                        r_table_count := None;
                        r_message := None;
                        r_error := Some (exn_str e) |}, 500)
              end).
  { intros [content|e]; cbn [bind]; [|reflexivity].
    unfold extractPdfTables_run.
    destruct (open_bytes content) as [pages|e]; cbn [bind]; [|reflexivity].
    destruct (extract_nvr_tables pages) as [[|t tbls]|e]; reflexivity. }
  destruct (String.prefix "gs://" (String c url)) eqn:Eg.
  - apply Hrun.
  - destruct Hscheme as [H|H]; [discriminate|]. rewrite H. apply Hrun.
Qed.

Lemma accepted_request_runs_download_open_extract_witness :
  @extractPdfTables pandas_strict string
    (fun _ _ => Ok "pdf") (fun _ => Ok "pdf") (fun _ => Ok [page_blank]) "tmp.pdf"
    (Some [("fileUrl", "gs://bucket-only")])
  = (ResultBody {| extractionId := "default";
                   status := "failed";
                   r_tables := [];
                   r_table_count := None;
                   r_message := None;
                   r_error := Some "Invalid GCS URL format: gs://bucket-only" |}, 500)
  /\ snd (@extractPdfTables pandas_strict string
            (fun _ _ => Ok "pdf") (fun _ => Ok "pdf") (fun _ => Ok [page_blank]) "tmp.pdf"
            (Some [("extractionId", "id-7"); ("fileUrl", "https://host/report.pdf")]))
     = 200.
Proof.
  split.
  - refine (eq_trans
              (accepted_request_runs_download_open_extract pandas_strict string
                 (fun _ _ => Ok "pdf") (fun _ => Ok "pdf") (fun _ => Ok [page_blank])
                 "tmp.pdf" [("fileUrl", "gs://bucket-only")] "gs://bucket-only"
                 eq_refl (or_introl eq_refl)) _).
    reflexivity.
  - refine (eq_trans
              (f_equal snd
                 (accepted_request_runs_download_open_extract pandas_strict string
                    (fun _ _ => Ok "pdf") (fun _ => Ok "pdf") (fun _ => Ok [page_blank])
                    "tmp.pdf"
                    [("extractionId", "id-7"); ("fileUrl", "https://host/report.pdf")]
                    "https://host/report.pdf" eq_refl (or_intror eq_refl))) _).
    reflexivity.
Defined.


